(** * JS8Call Monitor: status window and settings dialog

    A shallow embedding of the two Python sources of the repository,

      - [js8call monitor/js8call_monitor_gui.py]  (module [Gui] below)
      - [js8call-monitor-v1.0/settings.py]        (module [Settings] below)

    together with the parts of the Python library they call
    ([distutils.util.strtobool], [int], [str], [repr], [configparser]).

    Strings are byte strings; [str.lower] and the white space of [int]
    are the ASCII ones.  A configuration file that is read is
    represented by what [configparser] makes of it; a file that was
    written, by the configuration it was written from: the text of the
    file and its parsing are not modelled. *)

From Stdlib Require Import Ascii.
From stdpp Require Import gmap strings list fin_maps pretty.

Local Open Scope string_scope.
Local Open Scope Z_scope.

(** ** Python: exceptions and results *)

Module Python.

(** The instances of [Exception] the two sources can meet, each with the
    arguments it is constructed from.  [Exception msg] stands for any
    other instance, raised by code outside the two files, whose [str] is
    [msg]. *)
Inductive exn : Type :=
  | KeyError (key : string)
  | ValueError (msg : string)
  | OverflowError (msg : string)
  | AttributeError (attr : string)
  | NoSectionError (section : string)
  | InterpolationSyntaxError (option section msg : string)
  | InterpolationMissingOptionError (option section rawval reference : string)
  | InterpolationDepthError (option section rawval : string)
  | OSError (msg : string)
  | Exception (msg : string).

#[global] Instance exn_eq_dec : EqDecision exn.
Proof. solve_decision. Defined.

(** A computation that returns [a] or raises [e]. *)
Inductive result (A : Type) : Type :=
  | Ok (a : A)
  | Raise (e : exn).
Arguments Ok {A} a.
Arguments Raise {A} e.

#[global] Instance result_eq_dec `{EqDecision A} : EqDecision (result A).
Proof. solve_decision. Defined.

#[global] Instance result_ret : MRet result := fun A a => Ok a.
#[global] Instance result_bind : MBind result := fun A B f r =>
  match r with
  | Ok a => f a
  | Raise e => Raise e
  end.

Definition is_ok {A} (r : result A) : bool :=
  match r with Ok _ => true | Raise _ => false end.

Definition is_key_error (e : exn) : bool :=
  match e with KeyError _ => true | _ => false end.

(** ** Characters and strings *)

Definition code (c : ascii) : N := Ascii.N_of_ascii c.

Definition between (lo hi : N) (c : ascii) : bool :=
  ((lo <=? code c) && (code c <=? hi))%N.

Definition ascii_lower (c : ascii) : ascii :=
  if between 65 90 c then Ascii.ascii_of_N (code c + 32) else c.

(** [str.lower()] *)
Fixpoint lower (s : string) : string :=
  match s with
  | EmptyString => EmptyString
  | String c r => String (ascii_lower c) (lower r)
  end.

(** [c in s] for a one-character [c] *)
Fixpoint contains (c : ascii) (s : string) : bool :=
  match s with
  | EmptyString => false
  | String d r => if decide (c = d) then true else contains c r
  end.

Definition hex_digit (n : N) : ascii :=
  if (n <? 10)%N then Ascii.ascii_of_N (48 + n) else Ascii.ascii_of_N (87 + n).

Definition escape (quote c : ascii) : string :=
  if decide (c = "\"%char) then "\\"
  else if decide (c = quote) then String "\" (String c "")
  else if decide (c = "010"%char) then "\n"
  else if decide (c = "013"%char) then "\r"
  else if decide (c = "009"%char) then "\t"
  else if between 32 126 c then String c ""
  else if (code c <? 128)%N
       then String "\" (String "x"
              (String (hex_digit (code c / 16)) (String (hex_digit (code c mod 16)) "")))
  else String c "".

Fixpoint escape_all (quote : ascii) (s : string) : string :=
  match s with
  | EmptyString => EmptyString
  | String c r => escape quote c +:+ escape_all quote r
  end.

(** [repr(s)]: single quotes, unless the string holds a single quote and
    no double quote. *)
Definition repr (s : string) : string :=
  let quote : ascii :=
    if contains "'" s && negb (contains "034" s) then "034"%char else "'"%char in
  String quote (escape_all quote s +:+ String quote "").

(** [str(b).lower()] for a [bool] *)
Definition str_bool_lower (b : bool) : string := if b then "true" else "false".

(** [str(n)] for an [int] *)
Definition str_int (n : Z) : string := pretty n.

(** [bool(n)] for an [int] *)
Definition bool_of_int (n : Z) : bool := negb (n =? 0).

(** ** [distutils.util.strtobool] *)

Definition strtobool (val : string) : result Z :=
  let val := lower val in
  if bool_decide (val ∈ ["y"; "yes"; "t"; "true"; "on"; "1"]) then Ok 1
  else if bool_decide (val ∈ ["n"; "no"; "f"; "false"; "off"; "0"]) then Ok 0
  else Raise (ValueError ("invalid truth value " +:+ repr val)).

(** ** [int(s)] for a string, base 10 *)

(** The white space [int] strips from an ASCII string: tab to carriage
    return, and the blank. *)
Definition is_space (c : ascii) : bool :=
  between 9 13 c || between 32 32 c.

Fixpoint lstrip (s : string) : string :=
  match s with
  | EmptyString => EmptyString
  | String c r => if is_space c then lstrip r else s
  end.

Definition strip (s : string) : string :=
  String.rev (lstrip (String.rev (lstrip s))).

Definition is_digit (c : ascii) : bool := between 48 57 c.

(** Digits, with single underscores between digits. *)
Fixpoint digits_value (acc : Z) (after_digit : bool) (s : string) : option Z :=
  match s with
  | EmptyString => if after_digit then Some acc else None
  | String c r =>
      if is_digit c then digits_value (10 * acc + (Z.of_N (code c) - 48)) true r
      else if decide (c = "_"%char)
           then (if after_digit then digits_value acc false r else None)
      else None
  end.

Definition int (s : string) : result Z :=
  let t := strip s in
  let '(negative, body) :=
    match t with
    | String "-" r => (true, r)
    | String "+" r => (false, r)
    | _ => (false, t)
    end in
  match digits_value 0 false body with
  | Some n => Ok (if negative then - n else n)
  | None => Raise (ValueError ("invalid literal for int() with base 10: " +:+ repr s))
  end.

(** ** [str(e)] for an exception *)

Definition str (e : exn) : string :=
  match e with
  | KeyError k => repr k
  | ValueError m | OverflowError m | OSError m | Exception m => m
  | AttributeError a => "'SettingsDialog' object has no attribute " +:+ repr a
  | NoSectionError s => "No section: " +:+ repr s
  | InterpolationSyntaxError _ _ m => m
  | InterpolationMissingOptionError o s raw ref =>
      "Bad value substitution: option " +:+ repr o +:+ " in section " +:+ repr s
      +:+ " contains an interpolation key " +:+ repr ref
      +:+ " which is not a valid option name. Raw value: " +:+ repr raw
  | InterpolationDepthError o s raw =>
      "Recursion limit exceeded in value substitution: option " +:+ repr o
      +:+ " in section " +:+ repr s
      +:+ " contains an interpolation key which cannot be substituted in 10 steps. Raw value: "
      +:+ repr raw
  end.

(** A result that is a value or an exception other than [KeyError]. *)
Definition passes {A} (r : result A) : Prop :=
  ∀ e, r = Raise e → is_key_error e = false.


End Python.

Import Python.

(** ** The library [configparser]

    A [ConfigParser] holds the options of the [DEFAULT] section and, per
    section name, the options of that section.  Option names go through
    [optionxform] (lower case); values are kept raw and interpolated by
    [get] ([BasicInterpolation]). *)

Module configparser.

Record ConfigParser : Type := {
  defaults : gmap string string;
  sections : gmap string (gmap string string)
}.

Definition default_section : string := "DEFAULT".

Definition optionxform (option : string) : string := lower option.

(** [ConfigParser()] *)
Definition new : ConfigParser := {| defaults := ∅; sections := ∅ |}.

Definition has_section (cfg : ConfigParser) (section : string) : bool :=
  bool_decide (is_Some (sections cfg !! section)).

(** [section in cfg] *)
Definition contains_section (cfg : ConfigParser) (section : string) : bool :=
  bool_decide (section = default_section) || has_section cfg section.

(** The options visible in a section: its own, then those of [DEFAULT]. *)
Definition unify_values (cfg : ConfigParser) (section : string)
  : result (gmap string string) :=
  match sections cfg !! section with
  | Some d => Ok (d ∪ defaults cfg)
  | None =>
      if decide (section = default_section) then Ok (defaults cfg)
      else Raise (NoSectionError section)
  end.

Definition has_option (cfg : ConfigParser) (section option : string) : bool :=
  if decide (section = EmptyString ∨ section = default_section)
  then bool_decide (is_Some (defaults cfg !! optionxform option))
  else match sections cfg !! section with
       | None => false
       | Some d =>
           bool_decide (is_Some (d !! optionxform option))
           || bool_decide (is_Some (defaults cfg !! optionxform option))
       end.

(** The match of the pattern [%\(([^)]+)\)s] once its first two
    characters are read: the name up to the first closing parenthesis and
    the text after the [s] that follows it. *)
Fixpoint key_match (r : string) : option (string * string) :=
  match r with
  | EmptyString => None
  | String c r' =>
      if decide (c = ")"%char) then
        match r' with
        | String c' r'' => if decide (c' = "s"%char) then Some (EmptyString, r'') else None
        | EmptyString => None
        end
      else
        match key_match r' with
        | Some (name, rest) => Some (String c name, rest)
        | None => None
        end
  end.

(** The [while rest:] loop of [BasicInterpolation._interpolate_some];
    [deeper] is the recursive call on a value that holds a percent
    sign. *)
Fixpoint interpolate_loop (deeper : string → result string)
    (option section rawval : string) (map : gmap string string)
    (fuel : nat) (rest : string) {struct fuel} : result string :=
  match fuel, rest with
  | O, _ | _, EmptyString => Ok EmptyString
  | S fuel', String c r =>
      if decide (c = "%"%char) then
        match r with
        | EmptyString =>
            Raise (InterpolationSyntaxError option section
                     ("'%' must be followed by '%' or '(', found: " +:+ repr rest))
        | String c' r' =>
            if decide (c' = "%"%char) then
              s ← interpolate_loop deeper option section rawval map fuel' r';
              Ok (String "%" s)
            else if decide (c' = "("%char) then
              match key_match r' with
              | Some (String n name, r'') =>
                  let var := optionxform (String n name) in
                  match map !! var with
                  | None =>
                      Raise (InterpolationMissingOptionError option section rawval var)
                  | Some v =>
                      v' ← (if contains "%" v then deeper v else Ok v);
                      s ← interpolate_loop deeper option section rawval map fuel' r'';
                      Ok (v' +:+ s)
                  end
              | _ =>
                  Raise (InterpolationSyntaxError option section
                           ("bad interpolation variable reference " +:+ repr rest))
              end
            else
              Raise (InterpolationSyntaxError option section
                       ("'%' must be followed by '%' or '(', found: " +:+ repr rest))
        end
      else
        s ← interpolate_loop deeper option section rawval map fuel' r;
        Ok (String c s)
  end.

(** [BasicInterpolation._interpolate_some]; [levels] counts the depths
    still allowed (ten at the start). *)
Fixpoint interpolate_some (levels : nat) (option section rawval : string)
    (map : gmap string string) (rest : string) {struct levels} : result string :=
  match levels with
  | O => Raise (InterpolationDepthError option section rawval)
  | S levels' =>
      interpolate_loop (interpolate_some levels' option section rawval map)
        option section rawval map (S (String.length rest)) rest
  end.

Definition MAX_INTERPOLATION_DEPTH : nat := 10.

Definition before_get (option section value : string) (map : gmap string string)
  : result string :=
  interpolate_some MAX_INTERPOLATION_DEPTH option section value map value.

(** [value.replace('%%', '')] *)
Fixpoint remove_escaped (fuel : nat) (s : string) : string :=
  match fuel, s with
  | O, _ | _, EmptyString => s
  | S fuel', String c r =>
      if decide (c = "%"%char) then
        match r with
        | String c' r' =>
            if decide (c' = "%"%char) then remove_escaped fuel' r'
            else String c (remove_escaped fuel' r)
        | EmptyString => s
        end
      else String c (remove_escaped fuel' r)
  end.

(** [_KEYCRE.sub('', s)] *)
Fixpoint remove_keys (fuel : nat) (s : string) : string :=
  match fuel, s with
  | O, _ | _, EmptyString => s
  | S fuel', String c r =>
      if decide (c = "%"%char) then
        match r with
        | String c' r' =>
            if decide (c' = "("%char) then
              match key_match r' with
              | Some (String _ _, r'') => remove_keys fuel' r''
              | _ => String c (remove_keys fuel' r)
              end
            else String c (remove_keys fuel' r)
        | EmptyString => s
        end
      else String c (remove_keys fuel' r)
  end.

Fixpoint find (c : ascii) (s : string) : option nat :=
  match s with
  | EmptyString => None
  | String d r => if decide (c = d) then Some O else S <$> find c r
  end.

Definition before_set (value : string) : result string :=
  let tmp_value := remove_escaped (String.length value) value in
  let tmp_value := remove_keys (String.length tmp_value) tmp_value in
  match find "%" tmp_value with
  | Some position =>
      Raise (ValueError ("invalid interpolation syntax in " +:+ repr value
                         +:+ " at position " +:+ pretty position))
  | None => Ok value
  end.

(** [cfg.get(section, option, fallback=fallback)] *)
Definition get (cfg : ConfigParser) (section option fallback : string) : result string :=
  match unify_values cfg section with
  | Raise _ => Ok fallback
  | Ok d =>
      let option := optionxform option in
      match d !! option with
      | None => Ok fallback
      | Some value => before_get option section value d
      end
  end.

(** [cfg.set(section, option, value)] *)
Definition set (cfg : ConfigParser) (section option value : string) : result ConfigParser :=
  value ← (if decide (value = EmptyString) then Ok value else before_set value);
  if decide (section = EmptyString ∨ section = default_section)
  then Ok {| defaults := <[optionxform option := value]> (defaults cfg);
             sections := sections cfg |}
  else match sections cfg !! section with
       | None => Raise (NoSectionError section)
       | Some d =>
           Ok {| defaults := defaults cfg;
                 sections := <[section := <[optionxform option := value]> d]> (sections cfg) |}
       end.

(** [cfg[section]]: a proxy, which is the parser with the section's name. *)
Record SectionProxy : Type := { parser : ConfigParser; name : string }.

Definition getitem (cfg : ConfigParser) (section : string) : result SectionProxy :=
  if negb (bool_decide (section = default_section)) && negb (has_section cfg section)
  then Raise (KeyError section)
  else Ok {| parser := cfg; name := section |}.

(** [proxy.get(option, fallback)] *)
Definition proxy_get (proxy : SectionProxy) (option fallback : string) : result string :=
  get (parser proxy) (name proxy) option fallback.

(** The raw value stored for an option, as [write] puts it in the file:
    the options of [DEFAULT] under [DEFAULT], the others under their
    section. *)
Definition stored (cfg : ConfigParser) (section key : string) : option string :=
  if decide (section = default_section) then defaults cfg !! key
  else sections cfg !! section ≫= (.!! key).

(** What [get] sees of an option: the value of the section, else that of
    [DEFAULT], when the section exists. *)
Definition visible (cfg : ConfigParser) (section option : string) : Datatypes.option string :=
  match unify_values cfg section with
  | Ok d => d !! optionxform option
  | Raise _ => None
  end.

(** The options read as truth values by the status window. *)
Definition flags : list string := ["enabled"; "enabled_msg"; "enabled_spot"].

(** A value without a percent sign that, under one of these options, is
    a truth value; a configuration all of whose values are such. *)
Definition good_value (option value : string) : Prop :=
  contains "%" value = false ∧ (option ∈ flags → is_ok (strtobool value) = true).

#[global] Instance good_value_dec option value : Decision (good_value option value).
Proof. unfold good_value. apply _. Defined.


End configparser.

(** ** The file [config] *)

(** A file that [configparser] can read: it is absent, or it holds a
    text that [read] turns into a configuration.  With it, what the
    system does when the file is written: [open('config', 'w')] fails
    with [OSError] when [open_error] says so, and once the file is open
    [cfg.write(f)], or the closing of the file that ends the [with],
    raises when [write_error] says so (a full disk, a character the
    encoding of the file cannot take). *)
Record FileSystem : Type := {
  config_file : option configparser.ConfigParser;
  open_error : option string;
  write_error : option exn
}.

(** [cfg = ConfigParser(); cfg.read('config')] when [read] returns: a
    missing file is skipped.  The [read] that raises is [config_read]
    below. *)
Definition read (fs : FileSystem) : configparser.ConfigParser :=
  default configparser.new (config_file fs).

(** The file as a program finds it: one [configparser] can read, or one
    on which [cfg.read('config')] raises ([MissingSectionHeaderError],
    [DuplicateOptionError], [ParsingError], ...). *)
Inductive found : Type :=
  | Parses (fs : FileSystem)
  | Garbled (e : exn).

(** [cfg.read('config')], with the exception it may raise. *)
Definition config_read (d : found) : result FileSystem :=
  match d with
  | Parses fs => Ok fs
  | Garbled e => Raise e
  end.

(** The file after a method of the dialog: as it was; or holding the
    whole text [cfg.write(f)] makes of a configuration; or cut: emptied
    by [open('config', 'w')] and holding what had reached it of that
    text when the write raised, a beginning of it and in general not the
    whole.  What [configparser] would read from a text that was written
    is not modelled: it need not be the configuration written. *)
Inductive disk : Type :=
  | Kept (fs : FileSystem)
  | Rewritten (cfg : configparser.ConfigParser)
  | Cut (cfg : configparser.ConfigParser).

Coercion Kept : FileSystem >-> disk.

(** [with open('config', 'w') as f: cfg.write(f)]: what is left of the
    file, and the exception raised if any.  A failing [open] leaves the
    file; a successful one empties it before anything is written. *)
Definition open_write (fs : FileSystem) (cfg : configparser.ConfigParser)
  : disk * option exn :=
  match open_error fs with
  | Some msg => (Kept fs, Some (OSError msg))
  | None =>
      match write_error fs with
      | Some e => (Cut cfg, Some e)
      | None => (Rewritten cfg, None)
      end
  end.

(** ** [js8call_monitor_gui.py] *)

Module Gui.

Import configparser.

(** *** [class ConnectionStatus] *)

Record ConnectionStatus : Type := {
  name : string;
  protocol : string;
  host : string;
  port : string;
  connected : bool
}.

(** [ConnectionStatus(name, protocol, host, port)] *)
Definition ConnectionStatus_init (name protocol host port : string) : ConnectionStatus :=
  {| name := name; protocol := protocol; host := host; port := port; connected := false |}.

(** [self.connected = b] *)
Definition set_connected (b : bool) (self : ConnectionStatus) : ConnectionStatus :=
  {| name := name self; protocol := protocol self; host := host self; port := port self;
     connected := b |}.

(** [check_connection]: the value returned and the record afterwards.
    The assignment under [try] cannot raise, so its handler is dead. *)
Definition check_connection (self : ConnectionStatus) : bool * ConnectionStatus :=
  let self :=
    if decide (protocol self = "UDP") then set_connected true self
    else if decide (protocol self = "TCP") then set_connected true self
    else self in
  (connected self, self).

(** Modelled from the spec: the client object of [js8call_monitor], which
    is not among the sources; the spec speaks of a status mirrored from
    it, so it carries a connection flag. *)
Record tcp_client : Type := { client_connected : bool }.

(** *** [class StatusIndicator] *)

(** The style sheet of the LED label: none yet, the green one
    ([#00FF00]) or the red one ([#FF0000]). *)
Inductive led_style : Type := Unstyled | Green | Red.

Record StatusIndicator : Type := {
  status : ConnectionStatus;
  led : led_style
}.

Definition update_led (connected : bool) (self : StatusIndicator) : StatusIndicator :=
  {| status := set_connected connected (status self);
     led := if connected then Green else Red |}.

(** [StatusIndicator(name, protocol, host, port)]: [init_ui] ends the
    construction of the label with [update_led(False)]. *)
Definition StatusIndicator_init (name protocol host port : string) : StatusIndicator :=
  update_led false
    {| status := ConnectionStatus_init name protocol host port; led := Unstyled |}.

Definition check_status (self : StatusIndicator) : bool * StatusIndicator :=
  let '(connected, st) := check_connection (status self) in
  (connected, update_led connected {| status := st; led := led self |}).

(** *** [class MonitorThread] *)

(** The calls of [run] into [js8call_monitor], which is not among the
    sources: the two queue tests and the three methods of the monitor,
    over a state [World] of that module.  Each may raise. *)
Class Monitor (World : Type) : Type := {
  msgQueue_empty : World → result bool;
  cmdQueue_empty : World → result bool;
  parse_json : World → World * result ();
  parse_cmd : World → World * result ();
  reset_vals : World → World * result ()
}.

(** Where the thread stands in [run]. *)
Inductive point : Type :=
  | AtWhile                  (* while self.running: *)
  | AtMsgEmpty               (*   while not msgQueue.empty(): *)
  | AtParseJson              (*     self.monitor.parse_json() *)
  | AtMsgReset               (*     self.monitor.reset_vals() *)
  | AtCmdEmpty               (*   while not cmdQueue.empty(): *)
  | AtParseCmd               (*     self.monitor.parse_cmd() *)
  | AtCmdReset               (*     self.monitor.reset_vals() *)
  | AtSleep                  (*   time.sleep(0.5) *)
  | AtExcept (e : exn)       (* except Exception as e: emit(str(e)) *)
  | Returned.

#[global] Instance point_eq_dec : EqDecision point.
Proof. solve_decision. Defined.

Record MonitorThread (World : Type) : Type := {
  running : bool;
  at_point : point;
  world : World
}.
Arguments running {World} _.
Arguments at_point {World} _.
Arguments world {World} _.

(** [MonitorThread(monitor)] followed by [start()] *)
Definition MonitorThread_init {World} (w : World) : MonitorThread World :=
  {| running := true; at_point := AtWhile; world := w |}.

Inductive callee : Type := MsgEmpty | ParseJson | CmdEmpty | ParseCmd | ResetVals.

(** What one step of the thread does. [Sleep] is in milliseconds. *)
Inductive event : Type :=
  | TestRunning (b : bool)
  | Call (f : callee)
  | Sleep (ms : Z)
  | Emit (msg : string).

#[global] Instance callee_eq_dec : EqDecision callee.
Proof. solve_decision. Defined.
#[global] Instance event_eq_dec : EqDecision event.
Proof. solve_decision. Defined.

Section run.
Context {World : Type} `{!Monitor World}.

Definition goto (p : point) (w : World) (self : MonitorThread World) : MonitorThread World :=
  {| running := running self; at_point := p; world := w |}.

(** A queue test inside [try]. *)
Definition test (f : callee) (q : World → result bool) (empty nonempty : point)
    (self : MonitorThread World) : event * MonitorThread World :=
  let w := world self in
  match q w with
  | Ok true => (Call f, goto empty w self)
  | Ok false => (Call f, goto nonempty w self)
  | Raise e => (Call f, goto (AtExcept e) w self)
  end.

(** A method call inside [try]. *)
Definition call (f : callee) (m : World → World * result ()) (next : point)
    (self : MonitorThread World) : event * MonitorThread World :=
  match m (world self) with
  | (w, Ok _) => (Call f, goto next w self)
  | (w, Raise e) => (Call f, goto (AtExcept e) w self)
  end.

(** One step of [run]. *)
Definition step (self : MonitorThread World) : option (event * MonitorThread World) :=
  match at_point self with
  | AtWhile =>
      if running self then Some (TestRunning true, goto AtMsgEmpty (world self) self)
      else Some (TestRunning false, goto Returned (world self) self)
  | AtMsgEmpty => Some (test MsgEmpty msgQueue_empty AtCmdEmpty AtParseJson self)
  | AtParseJson => Some (call ParseJson parse_json AtMsgReset self)
  | AtMsgReset => Some (call ResetVals reset_vals AtMsgEmpty self)
  | AtCmdEmpty => Some (test CmdEmpty cmdQueue_empty AtSleep AtParseCmd self)
  | AtParseCmd => Some (call ParseCmd parse_cmd AtCmdReset self)
  | AtCmdReset => Some (call ResetVals reset_vals AtCmdEmpty self)
  | AtSleep => Some (Sleep 500, goto AtWhile (world self) self)
  | AtExcept e => Some (Emit (str e), goto AtWhile (world self) self)
  | Returned => None
  end.

(** [n] steps of the thread alone, with what they do. *)
Fixpoint steps (n : nat) (self : MonitorThread World) : list event * MonitorThread World :=
  match n with
  | O => ([], self)
  | S n' =>
      match step self with
      | None => ([], self)
      | Some (ev, self') =>
          let '(evs, self'') := steps n' self' in (ev :: evs, self'')
      end
  end.

(** [stop()] *)
Definition stop (self : MonitorThread World) : MonitorThread World :=
  {| running := false; at_point := at_point self; world := world self |}.

(** The thread among the others: it takes a step, the window calls
    [stop()], or other code changes the state of [js8call_monitor]
    (a producer fills a queue). *)
Inductive action : Type :=
  | Step
  | Stop
  | Other (f : World → World).

Fixpoint schedule (acts : list action) (self : MonitorThread World)
  : list event * MonitorThread World :=
  match acts with
  | [] => ([], self)
  | Step :: acts' =>
      match step self with
      | None => schedule acts' self
      | Some (ev, self') =>
          let '(evs, self'') := schedule acts' self' in (ev :: evs, self'')
      end
  | Stop :: acts' => schedule acts' (stop self)
  | Other f :: acts' => schedule acts' (goto (at_point self) (f (world self)) self)
  end.
(** One round of the first inner loop, and one of the second. *)
Definition handle_msg (w : World) : World := (reset_vals (parse_json w).1).1.
Definition handle_cmd (w : World) : World := (reset_vals (parse_cmd w).1).1.

(** The exception, if any, that the statement the thread stands at
    raises. *)
Definition raised (self : MonitorThread World) : option exn :=
  let outcome {A} (r : result A) :=
    match r with Ok _ => None | Raise e => Some e end in
  match at_point self with
  | AtMsgEmpty => outcome (msgQueue_empty (world self))
  | AtCmdEmpty => outcome (cmdQueue_empty (world self))
  | AtParseJson => outcome (parse_json (world self)).2
  | AtParseCmd => outcome (parse_cmd (world self)).2
  | AtMsgReset | AtCmdReset => outcome (reset_vals (world self)).2
  | AtWhile | AtSleep | AtExcept _ | Returned => None
  end.

(** What one pass of the outer loop does when [n] messages and then [m]
    commands are handled. *)
Definition iteration (n m : nat) : list event :=
  [TestRunning true]
  ++ mjoin (replicate n [Call MsgEmpty; Call ParseJson; Call ResetVals])
  ++ [Call MsgEmpty]
  ++ mjoin (replicate m [Call CmdEmpty; Call ParseCmd; Call ResetVals])
  ++ [Call CmdEmpty; Sleep 500].

(** [n] rounds of the first inner loop, as they go when nothing raises:
    [n] times the queue test answers that there is a message and
    [parse_json] and [reset_vals] return, then the test answers that the
    queue is empty.  Likewise [m] rounds of the second. *)
Fixpoint msg_rounds (n : nat) (w : World) : Prop :=
  match n with
  | O => msgQueue_empty w = Ok true
  | S n' =>
      msgQueue_empty w = Ok false
      ∧ (parse_json w).2 = Ok ()
      ∧ (reset_vals (parse_json w).1).2 = Ok ()
      ∧ msg_rounds n' (handle_msg w)
  end.

Fixpoint cmd_rounds (m : nat) (w : World) : Prop :=
  match m with
  | O => cmdQueue_empty w = Ok true
  | S m' =>
      cmdQueue_empty w = Ok false
      ∧ (parse_cmd w).2 = Ok ()
      ∧ (reset_vals (parse_cmd w).1).2 = Ok ()
      ∧ cmd_rounds m' (handle_cmd w)
  end.

(** Whether a step is a test of the flag. *)
Definition is_test (ev : event) : bool :=
  match ev with TestRunning _ => true | _ => false end.

(** A queue discipline for the calls into [js8call_monitor]: they
    return, they tell an empty queue by its number of items, and a round
    of an inner loop takes one item. *)
Record discipline (msg_count cmd_count : World → nat) : Prop := {
  msg_empty_counts : ∀ w, msgQueue_empty w = Ok (bool_decide (msg_count w = 0%nat));
  cmd_empty_counts : ∀ w, cmdQueue_empty w = Ok (bool_decide (cmd_count w = 0%nat));
  parse_json_quiet : ∀ w, (parse_json w).2 = Ok ();
  parse_cmd_quiet : ∀ w, (parse_cmd w).2 = Ok ();
  reset_vals_quiet : ∀ w, (reset_vals w).2 = Ok ();
  handle_msg_takes_one : ∀ w, msg_count (handle_msg w) = pred (msg_count w);
  handle_cmd_takes_one : ∀ w, cmd_count (handle_cmd w) = pred (cmd_count w)
}.

End run.

(** *** [class JS8CallMonitorGUI] *)

(** What a timer calls. *)
Inductive slot : Type :=
  | UpdateStatus (force : bool).

(** [QTimer]: [timer.start(interval)] or [QTimer.singleShot(interval, slot)]. *)
Record QTimer : Type := {
  interval : Z;
  single_shot : bool;
  timeout : slot
}.

(** Whether the timer fires [elapsed] milliseconds after it was started. *)
Definition fires (t : QTimer) (elapsed : Z) : bool :=
  if single_shot t then elapsed =? interval t
  else (0 <? elapsed) && (elapsed mod interval t =? 0).

Record JS8CallMonitorGUI : Type := {
  monitor : bool;                       (* a monitor instance was made *)
  monitor_thread : bool;                (* the thread was started *)
  gui_tcp_client : option tcp_client;
  udp_server : bool;
  status_indicators : list StatusIndicator;
  source_layout : list nat;             (* its widgets, by position in the list *)
  clients_layout : list nat;
  timers : list QTimer;
  console : list string                 (* the lines printed *)
}.

(** The window after [init_ui()]. *)
Definition init_ui : JS8CallMonitorGUI :=
  {| monitor := false; monitor_thread := false; gui_tcp_client := None; udp_server := false;
     status_indicators := []; source_layout := []; clients_layout := [];
     timers := []; console := [] |}.

(** [self.source_layout.addWidget(i); self.status_indicators.append(i)] *)
Definition add_source (i : StatusIndicator) (self : JS8CallMonitorGUI) : JS8CallMonitorGUI :=
  {| monitor := monitor self; monitor_thread := monitor_thread self;
     gui_tcp_client := gui_tcp_client self; udp_server := udp_server self;
     status_indicators := status_indicators self ++ [i];
     source_layout := source_layout self ++ [length (status_indicators self)];
     clients_layout := clients_layout self;
     timers := timers self; console := console self |}.

(** [self.clients_layout.addWidget(i); self.status_indicators.append(i)] *)
Definition add_client (i : StatusIndicator) (self : JS8CallMonitorGUI) : JS8CallMonitorGUI :=
  {| monitor := monitor self; monitor_thread := monitor_thread self;
     gui_tcp_client := gui_tcp_client self; udp_server := udp_server self;
     status_indicators := status_indicators self ++ [i];
     source_layout := source_layout self;
     clients_layout := clients_layout self ++ [length (status_indicators self)];
     timers := timers self; console := console self |}.

(** [config[section].get(option, fallback)] *)
Definition section_get (config : ConfigParser) (section option fallback : string)
  : result string :=
  proxy ← getitem config section; proxy_get proxy option fallback.

(** [bool(strtobool(config[section].get(option, 'false')))] *)
Definition enabled (config : ConfigParser) (section option : string) : result bool :=
  val ← section_get config section option "false";
  n ← strtobool val;
  Ok (bool_of_int n).

(** The guarded test of the TCP section; the bare [except] turns any
    failure into [False]. *)
Definition tcp_enabled (config : ConfigParser) : bool :=
  if contains_section config "TCP"
  then match enabled config "TCP" "enabled" with
       | Ok b => b
       | Raise _ => false
       end
  else false.

Definition load_source (config : ConfigParser) : result StatusIndicator :=
  if tcp_enabled config then
    host ← section_get config "TCP" "host" "127.0.0.1";
    port ← section_get config "TCP" "port" "2171";
    Ok (StatusIndicator_init "JS8Call (TCP)" "TCP" host port)
  else
    host ← section_get config "JS8Call" "host" "127.0.0.1";
    port ← section_get config "JS8Call" "port" "2242";
    Ok (StatusIndicator_init "JS8Call (UDP)" "UDP" host port).

Definition load_n1mm (config : ConfigParser) (self : JS8CallMonitorGUI)
  : result JS8CallMonitorGUI :=
  on ← enabled config "N1MM" "enabled";
  if on : bool then
    host ← section_get config "N1MM" "host" "127.0.0.1";
    port ← section_get config "N1MM" "port" "12060";
    Ok (add_client (StatusIndicator_init "N1MM+" "UDP" host port) self)
  else Ok self.

Definition load_gridtracker (config : ConfigParser) (self : JS8CallMonitorGUI)
  : result JS8CallMonitorGUI :=
  on ← enabled config "GRIDTRACKER" "enabled";
  if on : bool then
    host ← section_get config "GRIDTRACKER" "host" "127.0.0.1";
    port ← section_get config "GRIDTRACKER" "port" "2237";
    Ok (add_client (StatusIndicator_init "GridTracker" "UDP" host port) self)
  else Ok self.

Definition load_geoserver (config : ConfigParser) (self : JS8CallMonitorGUI)
  : result JS8CallMonitorGUI :=
  gs_msg ← enabled config "GEOSERVER" "enabled_msg";
  gs_spot ← enabled config "GEOSERVER" "enabled_spot";
  if gs_msg || gs_spot then
    host ← section_get config "GEOSERVER" "host" "127.0.0.1";
    port ← section_get config "GEOSERVER" "port" "8080";
    Ok (add_client (StatusIndicator_init "GeoServer" "UDP" host port) self)
  else Ok self.

Definition load_yaac (config : ConfigParser) (self : JS8CallMonitorGUI)
  : result JS8CallMonitorGUI :=
  on ← enabled config "YAAC" "enabled";
  if on : bool then
    logfile ← section_get config "YAAC" "logfile" "yaac.log";
    Ok (add_client (StatusIndicator_init "YAAC" "FILE" "Log" logfile) self)
  else Ok self.

Definition load_adif (config : ConfigParser) (self : JS8CallMonitorGUI)
  : result JS8CallMonitorGUI :=
  on ← enabled config "ADIF" "enabled";
  if on : bool then
    logfile ← section_get config "ADIF" "logfile" "adif.log";
    Ok (add_client (StatusIndicator_init "ADIF" "FILE" "Log" logfile) self)
  else Ok self.

(** [load_config] on a file [config.read] has read: the source
    indicator, then the five clients.  The [read] that raises is in
    [JS8CallMonitorGUI_new]. *)
Definition load_config (fs : FileSystem) (self : JS8CallMonitorGUI)
  : result JS8CallMonitorGUI :=
  let config := read fs in
  indicator ← load_source config;
  let self := add_source indicator self in
  self ← load_n1mm config self;
  self ← load_gridtracker config self;
  self ← load_geoserver config self;
  self ← load_yaac config self;
  load_adif config self.

(** [show_error]: one printed line. *)
Definition show_error (error_msg : string) (self : JS8CallMonitorGUI) : JS8CallMonitorGUI :=
  {| monitor := monitor self; monitor_thread := monitor_thread self;
     gui_tcp_client := gui_tcp_client self; udp_server := udp_server self;
     status_indicators := status_indicators self;
     source_layout := source_layout self; clients_layout := clients_layout self;
     timers := timers self;
     console := console self ++ ["Error: " +:+ error_msg] |}.

(** The slot connected to [error_signal] in [start_monitor]: an emitted
    string reaches [show_error]. *)
Definition deliver (ev : event) (self : JS8CallMonitorGUI) : JS8CallMonitorGUI :=
  match ev with
  | Emit msg => show_error msg self
  | _ => self
  end.

Definition update_status (force : bool) (self : JS8CallMonitorGUI) : JS8CallMonitorGUI :=
  {| monitor := monitor self; monitor_thread := monitor_thread self;
     gui_tcp_client := gui_tcp_client self; udp_server := udp_server self;
     status_indicators :=
       (fun indicator =>
          let indicator := snd (check_status indicator) in
          if force then update_led true indicator else indicator)
       <$> status_indicators self;
     source_layout := source_layout self; clients_layout := clients_layout self;
     timers := timers self; console := console self |}.

Definition add_timer (t : QTimer) (self : JS8CallMonitorGUI) : JS8CallMonitorGUI :=
  {| monitor := monitor self; monitor_thread := monitor_thread self;
     gui_tcp_client := gui_tcp_client self; udp_server := udp_server self;
     status_indicators := status_indicators self;
     source_layout := source_layout self; clients_layout := clients_layout self;
     timers := timers self ++ [t]; console := console self |}.

(** The constructors of [js8call_monitor] that [start_monitor] calls,
    with what each does when called. *)
Record Backend : Type := {
  JS8CallMonitor : result ();
  new_tcp_client : result tcp_client;
  new_udp_server : result ()
}.

Definition set_backend (m t : bool) (c : option tcp_client) (u : bool)
    (self : JS8CallMonitorGUI) : JS8CallMonitorGUI :=
  {| monitor := m; monitor_thread := t; gui_tcp_client := c; udp_server := u;
     status_indicators := status_indicators self;
     source_layout := source_layout self; clients_layout := clients_layout self;
     timers := timers self; console := console self |}.

Definition failed_to_start (e : exn) (self : JS8CallMonitorGUI) : JS8CallMonitorGUI :=
  show_error ("Failed to start monitor: " +:+ str e) self.

Definition start_monitor (fs : FileSystem) (b : Backend) (self : JS8CallMonitorGUI)
  : JS8CallMonitorGUI :=
  match JS8CallMonitor b with
  | Raise e => failed_to_start e self
  | Ok _ =>
      let self := set_backend true false None false self in
      let config := read fs in
      let started (self : JS8CallMonitorGUI) :=
        add_timer {| interval := 1000; single_shot := true; timeout := UpdateStatus true |}
          (set_backend true true (gui_tcp_client self) (udp_server self) self) in
      if tcp_enabled config then
        match new_tcp_client b with
        | Raise e => failed_to_start e self
        | Ok c => started (set_backend true false (Some c) false self)
        end
      else
        match new_udp_server b with
        | Raise e => failed_to_start e self
        | Ok _ => started (set_backend true false None true self)
        end
  end.

(** [JS8CallMonitorGUI()] *)
Definition JS8CallMonitorGUI_init (fs : FileSystem) (b : Backend) : result JS8CallMonitorGUI :=
  self ← load_config fs init_ui;
  let self := start_monitor fs b self in
  Ok (add_timer {| interval := 2000; single_shot := false; timeout := UpdateStatus false |} self).

(** A timer fires. *)
Definition on_timeout (t : QTimer) (self : JS8CallMonitorGUI) : JS8CallMonitorGUI :=
  match timeout t with
  | UpdateStatus force => update_status force self
  end.



End Gui.

(** ** [settings.py] *)

Module Settings.

Import configparser.

(** The three kinds of form widget, a spin box with its [setRange]. *)
Inductive widget : Type :=
  | QLineEdit
  | QCheckBox
  | QSpinBox (minimum maximum : Z).

(** What a widget holds: [text()], [isChecked()] or [value()]. *)
Inductive content : Type :=
  | Text (s : string)
  | Checked (b : bool)
  | Value (n : Z).

(** One form field: the attribute of the dialog that holds the widget,
    the section and the key it is read from and written to, and the
    fallback of the read. *)
Record binding : Type := bind {
  attr : string;
  section : string;
  key : string;
  kind : widget;
  fallback : string
}.

#[global] Instance widget_eq_dec : EqDecision widget.
Proof. solve_decision. Defined.
#[global] Instance content_eq_dec : EqDecision content.
Proof. solve_decision. Defined.
#[global] Instance binding_eq_dec : EqDecision binding.
Proof. solve_decision. Defined.

(** The fields, in the order the tabs create them, which is also the
    order [save_config] writes them in. *)
Definition bindings : list binding := [
    bind "operator_edit" "STATION" "operator" QLineEdit EmptyString;
    bind "class_edit" "STATION" "class" QLineEdit EmptyString;
    bind "my_grid_edit" "STATION" "my_gridsquare" QLineEdit EmptyString;
    bind "my_name_edit" "STATION" "my_name" QLineEdit EmptyString;
    bind "my_county_edit" "STATION" "my_county" QLineEdit EmptyString;
    bind "tcp_enabled" "TCP" "enabled" QCheckBox "false";
    bind "tcp_host_edit" "TCP" "host" QLineEdit "127.0.0.1";
    bind "tcp_port_edit" "TCP" "port" (QSpinBox 1 65535) "2171";
    bind "tcp_poll_edit" "TCP" "poll_status_interval" (QSpinBox 1 60) "5";
    bind "udp_host_edit" "JS8Call" "host" QLineEdit "127.0.0.1";
    bind "udp_port_edit" "JS8Call" "port" (QSpinBox 1 65535) "2242";
    bind "n1mm_enabled" "N1MM" "enabled" QCheckBox "false";
    bind "n1mm_host_edit" "N1MM" "host" QLineEdit "127.0.0.1";
    bind "n1mm_port_edit" "N1MM" "port" (QSpinBox 1 65535) "12060";
    bind "gt_enabled" "GRIDTRACKER" "enabled" QCheckBox "false";
    bind "gt_host_edit" "GRIDTRACKER" "host" QLineEdit "127.0.0.1";
    bind "gt_port_edit" "GRIDTRACKER" "port" (QSpinBox 1 65535) "2237";
    bind "gs_msg_enabled" "GEOSERVER" "enabled_msg" QCheckBox "false";
    bind "gs_spot_enabled" "GEOSERVER" "enabled_spot" QCheckBox "false";
    bind "gs_host_edit" "GEOSERVER" "host" QLineEdit "127.0.0.1";
    bind "gs_port_edit" "GEOSERVER" "port" (QSpinBox 1 65535) "8080";
    bind "gs_token_edit" "GEOSERVER" "token" QLineEdit EmptyString;
    bind "yaac_enabled" "YAAC" "enabled" QCheckBox "false";
    bind "yaac_logfile_edit" "YAAC" "logfile" QLineEdit "yaac.log";
    bind "adif_enabled" "ADIF" "enabled" QCheckBox "false";
    bind "adif_logfile_edit" "ADIF" "logfile" QLineEdit "adif.log";
    bind "db_location_edit" "DATABASES" "location" QLineEdit "./";
    bind "fcc_enabled" "DATABASES" "FccData" QCheckBox "false";
    bind "hamcallcd_enabled" "DATABASES" "HamCallCD" QCheckBox "false";
    bind "raccd_enabled" "DATABASES" "RacCD" QCheckBox "false";
    bind "local_enabled" "DATABASES" "LocalDB" QCheckBox "false";
    bind "local_learn" "DATABASES" "LocalDB_learn" QCheckBox "false";
    bind "collect_rejects" "DATABASES" "Collect_Rejects" QCheckBox "false";
    bind "callook_enabled" "DATABASES" "Callook" QCheckBox "false";
    bind "hamcallol_enabled" "DATABASES" "HamCallOnline" QCheckBox "false";
    bind "hc_username_edit" "DATABASES" "HCusername" QLineEdit EmptyString;
    bind "hc_password_edit" "DATABASES" "HCpassword" QLineEdit EmptyString;
    bind "console_level" "DEBUG" "consolelevel" (QSpinBox 0 10) "0";
    bind "logfile_level" "DEBUG" "logfilelevel" (QSpinBox 0 10) "0";
    bind "logfile_edit" "DEBUG" "logfile" QLineEdit "js8monitor.log";
    bind "smtp_enabled" "SMTP" "enabled" QCheckBox "false";
    bind "smtp_host_edit" "SMTP" "host" QLineEdit EmptyString;
    bind "smtp_port_edit" "SMTP" "port" (QSpinBox 1 65535) "587";
    bind "smtp_user_edit" "SMTP" "user" QLineEdit EmptyString;
    bind "smtp_pass_edit" "SMTP" "pass" QLineEdit EmptyString;
    bind "mail_from_edit" "SMTP" "mailfrom" QLineEdit EmptyString;
    bind "mail_to_edit" "SMTP" "mailto" QLineEdit EmptyString;
    bind "grid_length" "GRIDS" "gridlength" (QSpinBox 1 11) "6";
    bind "grid_frominfo" "GRIDS" "frominfo" QCheckBox "false";
    bind "map_all" "GRIDS" "map_all" QCheckBox "false";
    bind "map_cq" "GRIDS" "map_cq" QCheckBox "true";
    bind "map_heartbeat" "GRIDS" "map_heartbeat" QCheckBox "true";
    bind "map_info" "GRIDS" "map_info" QCheckBox "true";
    bind "map_status" "GRIDS" "map_status" QCheckBox "true";
    bind "map_log" "GRIDS" "map_log" QCheckBox "true";
    bind "map_qso" "GRIDS" "map_qso" QCheckBox "true";
    bind "map_snr" "GRIDS" "map_snr" QCheckBox "true";
    bind "auto_close" "GRIDS" "auto_close" QCheckBox "false";
    bind "auth_enabled" "AUTH" "enabled" QCheckBox "false";
    bind "auth_token_edit" "AUTH" "token" QLineEdit EmptyString
  ].

(** [QSpinBox.setValue(n)]: the argument must fit a C [int]; the value is
    bounded by the range. *)
Definition setValue (minimum maximum n : Z) : result content :=
  if (n <? -2147483648) || (2147483647 <? n)
  then Raise (OverflowError
                "argument 1 overflowed: value must be in the range -2147483648 to 2147483647")
  else Ok (Value (Z.max minimum (Z.min maximum n))).

(** The construction of one field in its [create_..._tab]. *)
Definition create (config : ConfigParser) (b : binding) : result content :=
  val ← get config (section b) (key b) (fallback b);
  match kind b with
  | QLineEdit => Ok (Text val)
  | QCheckBox => n ← strtobool val; Ok (Checked (bool_of_int n))
  | QSpinBox minimum maximum => n ← int val; setValue minimum maximum n
  end.

(** The widgets of the dialog, by attribute. *)
Fixpoint create_tabs (config : ConfigParser) (bs : list binding)
    (form : gmap string content) : result (gmap string content) :=
  match bs with
  | [] => Ok form
  | b :: bs' =>
      c ← create config b;
      create_tabs config bs' (<[attr b := c]> form)
  end.

Record SettingsDialog : Type := {
  config : ConfigParser;
  form : gmap string content
}.

(** [SettingsDialog()] on a file [config.read] has read; the [read]
    that raises is in [SettingsDialog_new]. *)
Definition SettingsDialog_init (fs : FileSystem) : result SettingsDialog :=
  let config := read fs in
  form ← create_tabs config bindings ∅;
  Ok {| config := config; form := form |}.

(** The string [save_config] takes from a field. *)
Definition shown (form : gmap string content) (b : binding) : result string :=
  match kind b, form !! attr b with
  | QLineEdit, Some (Text s) => Ok s
  | QCheckBox, Some (Checked c) => Ok (str_bool_lower c)
  | QSpinBox _ _, Some (Value n) => Ok (str_int n)
  | _, _ => Raise (AttributeError (attr b))
  end.

(** The sixty [self.config.set(...)] of [save_config], up to the first
    that raises: the configuration reached, and the exception if any. *)
Fixpoint update_config (bs : list binding) (form : gmap string content)
    (config : ConfigParser) : ConfigParser * option exn :=
  match bs with
  | [] => (config, None)
  | b :: bs' =>
      match (val ← shown form b; set config (section b) (key b) val) with
      | Ok config' => update_config bs' form config'
      | Raise e => (config, Some e)
      end
  end.

Inductive message_box : Type :=
  | Question (title text : string)
  | Information (title text : string)
  | Critical (title text : string).

Definition newline : string := String "010" EmptyString.

(** What a method of the dialog leaves behind. *)
Record outcome : Type := {
  dialog : SettingsDialog;
  files : disk;
  boxes : list message_box;
  accepted : bool
}.

Definition save_failed (e : exn) : message_box :=
  Critical "Error Saving Settings" ("Failed to save configuration:" +:+ newline +:+ str e).

Definition save_config (self : SettingsDialog) (fs : FileSystem) : outcome :=
  match update_config bindings (form self) (config self) with
  | (config', Some e) =>
      {| dialog := {| config := config'; form := form self |}; files := fs;
         boxes := [save_failed e]; accepted := false |}
  | (config', None) =>
      let self' := {| config := config'; form := form self |} in
      match open_write fs config' with
      | (there, Some e) =>
          {| dialog := self'; files := there; boxes := [save_failed e]; accepted := false |}
      | (there, None) =>
          {| dialog := self'; files := there;
             boxes := [Information "Settings Saved"
                         ("Configuration saved successfully!" +:+ newline +:+ newline
                          +:+ "Please restart the application for changes to take effect.")];
             accepted := true |}
      end
  end.

Inductive reply : Type := Yes | No.

Definition restore_defaults (r : reply) (self : SettingsDialog) (fs : FileSystem) : outcome :=
  {| dialog := self; files := fs;
     boxes :=
       Question "Restore Defaults"
         ("Are you sure you want to restore default settings?" +:+ newline
          +:+ "This will require restarting the application.")
       :: match r with
          | Yes => [Information "Restore Defaults"
                      ("Please manually restore your config file backup." +:+ newline
                       +:+ "A restart will be required.")]
          | No => []
          end;
     accepted := false |}.

(** The exception, if any, that the body of [try] in [save_config]
    raises: that of the first [set] that fails, else that of [open],
    else that of [write]. *)
Definition save_raises (self : SettingsDialog) (fs : FileSystem) : option exn :=
  match update_config bindings (form self) (config self) with
  | (_, Some e) => Some e
  | (config', None) => (open_write fs config').2
  end.


(** Whether some field is written to this option of this section. *)
Definition bound (section' option' : string) : bool :=
  bool_decide (Exists (fun b => section b = section' ∧ optionxform (key b) = option')
                 bindings).

(** A field whose section is a section proper, and the option a field is
    written to. *)
Definition proper (b : binding) : Prop :=
  section b ≠ EmptyString ∧ section b ≠ default_section.

Definition target (b : binding) : string * string := (section b, optionxform (key b)).

(** Whether, on the empty configuration, a field is built and shows its
    fallback. *)
Definition shows_fallback (b : binding) : bool :=
  match create new b with
  | Ok c => bool_decide (shown {[attr b := c]} b = Ok (fallback b))
  | Raise _ => false
  end.

End Settings.

(** ** Sample inputs *)

Module Samples.

Import configparser Gui.

(** A monitor whose queues are lists of pending items; a method takes
    the first item of its queue and never raises. *)
Record queues : Type := { msgQueue : list string; cmdQueue : list string }.

#[global] Instance list_monitor : Monitor queues := {|
  msgQueue_empty w := Ok (bool_decide (length (msgQueue w) = 0%nat));
  cmdQueue_empty w := Ok (bool_decide (length (cmdQueue w) = 0%nat));
  parse_json w := ({| msgQueue := tail (msgQueue w); cmdQueue := cmdQueue w |}, Ok ());
  parse_cmd w := ({| msgQueue := msgQueue w; cmdQueue := tail (cmdQueue w) |}, Ok ());
  reset_vals w := (w, Ok ())
|}.

(** A monitor with a message queue only, whose [parse_json] takes the
    first message and raises on an empty one, as [json.loads] does. *)
#[global] Instance json_monitor : Monitor (list string) := {|
  msgQueue_empty w := Ok (bool_decide (length w = 0%nat));
  cmdQueue_empty w := Ok true;
  parse_json w :=
    match w with
    | EmptyString :: w' =>
        (w', Raise (Exception "Expecting value: line 1 column 1 (char 0)"))
    | _ => (tail w, Ok ())
    end;
  parse_cmd w := (w, Ok ());
  reset_vals w := (w, Ok ())
|}.

Definition options (l : list (string * string)) : gmap string string := list_to_map l.

Definition file (l : list (string * list (string * string))) (writable : bool) : FileSystem :=
  {| config_file :=
       Some {| defaults := ∅; sections := list_to_map (prod_map id options <$> l) |};
     open_error := if writable then None else Some "[Errno 13] Permission denied: 'config'";
     write_error := None |}.

(** The same file on a disk that is full: it opens, and the write
    raises. *)
Definition on_full_disk (fs : FileSystem) : FileSystem :=
  {| config_file := config_file fs; open_error := None;
     write_error := Some (OSError "[Errno 28] No space left on device") |}.

(** A configuration with the thirteen sections, the TCP source and the
    N1MM client enabled, and an option [units] no field is bound to. *)
Definition full : list (string * list (string * string)) := [
    ("STATION", [("operator", "N0CALL"); ("my_gridsquare", "FN31pr"); ("units", "metric")]);
    ("TCP", [("enabled", "yes"); ("host", "192.168.1.20"); ("port", "0002442")]);
    ("JS8Call", [("port", "2242")]);
    ("N1MM", [("enabled", "true"); ("host", "127.0.0.1")]);
    ("GRIDTRACKER", []);
    ("GEOSERVER", [("enabled_msg", "false")]);
    ("YAAC", [("enabled", "on")]);
    ("ADIF", []);
    ("DATABASES", [("fccdata", "True")]);
    ("DEBUG", [("consolelevel", "3")]);
    ("SMTP", []);
    ("GRIDS", [("gridlength", "6")]);
    ("AUTH", [("token", "s3cret")])
  ].

(** The same without the sections ADIF and AUTH, and with a value of
    N1MM's [enabled] that is no truth value. *)
Definition partial : list (string * list (string * string)) := [
    ("STATION", [("operator", "N0CALL")]);
    ("TCP", [("enabled", "false")]);
    ("JS8Call", []);
    ("N1MM", [("enabled", "maybe")]);
    ("GRIDTRACKER", []);
    ("GEOSERVER", []);
    ("YAAC", []);
    ("DATABASES", []);
    ("DEBUG", []);
    ("SMTP", []);
    ("GRIDS", [])
  ].

(** A configuration with the UDP source and the N1MM section only. *)
Definition short : list (string * list (string * string)) := [
    ("JS8Call", [("host", "127.0.0.1")]);
    ("N1MM", [])
  ].

(** A parser with an option in [DEFAULT] and values to interpolate. *)
Definition layered : ConfigParser :=
  {| defaults := options [("port", "9999"); ("home", "/var/log")];
     sections :=
       list_to_map
         [("TCP", options [("host", "radio")]);
          ("DEBUG", options [("logfile", "%(home)s/js8.log"); ("rate", "50%")])] |}.

Definition backend : Backend :=
  {| JS8CallMonitor := Ok (); new_tcp_client := Ok {| client_connected := false |};
     new_udp_server := Ok () |}.

(** Two status records, the window loaded from a file and the dialog
    opened on one, four fields, and a thread about to parse an empty
    message. *)
Definition tcp_status : ConnectionStatus :=
  ConnectionStatus_init "JS8Call (TCP)" "TCP" "127.0.0.1" "2171".

Definition yaac_status : ConnectionStatus :=
  ConnectionStatus_init "YAAC" "FILE" "Log" "yaac.log".

Definition loaded (fs : FileSystem) : JS8CallMonitorGUI :=
  match load_config fs init_ui with
  | Ok self => self
  | Raise _ => init_ui
  end.

Definition opened (fs : FileSystem) : Settings.SettingsDialog :=
  match Settings.SettingsDialog_init fs with
  | Ok self => self
  | Raise _ => {| Settings.config := read fs; Settings.form := ∅ |}
  end.

Definition tcp_enabled_field : Settings.binding :=
  Settings.bind "tcp_enabled" "TCP" "enabled" Settings.QCheckBox "false".

Definition tcp_port_field : Settings.binding :=
  Settings.bind "tcp_port_edit" "TCP" "port" (Settings.QSpinBox 1 65535) "2171".


Definition operator_field : Settings.binding :=
  Settings.bind "operator_edit" "STATION" "operator" Settings.QLineEdit EmptyString.

Definition unparsed : MonitorThread (list string) :=
  {| running := true; at_point := AtParseJson; world := [EmptyString; "{}"] |}.

End Samples.

(** ** The status window at work: updates, loading, start and close *)

Module Window.

Import configparser Gui.

(** What names an indicator on the screen. *)
Definition identity (i : StatusIndicator) : string * string * string * string :=
  (name (status i), protocol (status i), host (status i), port (status i)).

(** The LED shows the flag. *)
Definition consistent (i : StatusIndicator) : Prop :=
  led i = if connected (status i) then Green else Red.

(** Whether [check_connection] assigns the flag for this protocol. *)
Definition checked (i : StatusIndicator) : bool :=
  bool_decide (protocol (status i) = "UDP" ∨ protocol (status i) = "TCP").

(** The indicator with its flag up when the update is forced, when its
    protocol is one [check_connection] assigns, or when it was up. *)
Definition updated (force : bool) (i : StatusIndicator) : StatusIndicator :=
  {| status := set_connected (force || checked i || connected (status i)) (status i);
     led := if force || checked i || connected (status i) then Green else Red |}.

(** The timer slot called again and again, each time with its [force]. *)
Definition updates (forces : list bool) (self : JS8CallMonitorGUI) : JS8CallMonitorGUI :=
  foldl (λ self force, update_status force self) self forces.

(** The attributes [sock] and [log_handle] of the monitor instance, which
    [js8call_monitor] makes: absent, or what their [close()] does. *)
Record Resources : Type := {
  sock : option (result ());
  log_handle : option (result ())
}.

(** What [closeEvent] leaves: the window, the thread, whether the event
    was accepted, the [close()] calls made, and the delay of the
    single-shot timer on [QApplication.quit]. *)
Record closing (World : Type) : Type := {
  window : JS8CallMonitorGUI;
  thread : MonitorThread World;
  event_accepted : bool;
  closes : list string;
  quit_after : option Z
}.
Arguments window {World} _.
Arguments thread {World} _.
Arguments event_accepted {World} _.
Arguments closes {World} _.
Arguments quit_after {World} _.

(** [print(line)] *)
Definition print (line : string) (self : JS8CallMonitorGUI) : JS8CallMonitorGUI :=
  {| monitor := monitor self; monitor_thread := monitor_thread self;
     gui_tcp_client := gui_tcp_client self; udp_server := udp_server self;
     status_indicators := status_indicators self;
     source_layout := source_layout self; clients_layout := clients_layout self;
     timers := timers self;
     console := console self ++ [line] |}.

(** [try: if self.monitor and hasattr(self.monitor, attr): close() except: pass]:
    the call is made when the attribute is there; what it raises is
    dropped. *)
Definition try_close (self : JS8CallMonitorGUI) (attr : string)
    (close : option (result ())) : list string :=
  if monitor self then
    match close with
    | Some _ => [attr]
    | None => []
    end
  else [].

(** [closeEvent]; [wait(5000)] only waits. *)
Definition closeEvent {World} `{!Monitor World} (r : Resources)
    (self : JS8CallMonitorGUI) (t : MonitorThread World) : closing World :=
  let self := print "Shutting down JS8Call Monitor..." self in
  let t := if monitor_thread self then stop t else t in
  let closed :=
    (try_close self "sock" (sock r) ++ try_close self "log_handle" (log_handle r))%list in
  let self := print "Cleanup complete. Exiting..." self in
  {| window := self; thread := t; event_accepted := true; closes := closed;
     quit_after := Some 100 |}.

(** The thread comes to the end of [run]. *)
Definition returns {World} `{!Monitor World} (t : MonitorThread World) : Prop :=
  ∃ n, at_point (steps n t).2 = Returned.

(** The thread is in the first inner loop. *)
Definition draining {World} (t : MonitorThread World) : Prop :=
  at_point t ∈ [AtMsgEmpty; AtParseJson; AtMsgReset].

(** An indicator as [StatusIndicator(...)] leaves it. *)
Definition fresh (i : StatusIndicator) : Prop :=
  led i = Red ∧ connected (status i) = false.

Definition label (i : StatusIndicator) : string * string :=
  (name (status i), protocol (status i)).

(** The client indicators [load_config] can make, in its order. *)
Definition client_labels : list (string * string) :=
  [("N1MM+", "UDP"); ("GridTracker", "UDP"); ("GeoServer", "UDP");
   ("YAAC", "FILE"); ("ADIF", "FILE")].

(** What a step of [load_config] does not touch. *)
Definition backstage (self : JS8CallMonitorGUI)
  : bool * bool * option tcp_client * bool * list QTimer * list string :=
  (monitor self, monitor_thread self, gui_tcp_client self, udp_server self,
   timers self, console self).

(** [self'] is [self] with client indicators of these labels added at the
    end, each fresh and laid out in the clients' box. *)
Definition adds (labels : list (string * string)) (self self' : JS8CallMonitorGUI) : Prop :=
  ∃ more,
    status_indicators self' = (status_indicators self ++ more)%list
    ∧ clients_layout self'
      = (clients_layout self ++ seq (length (status_indicators self)) (length more))%list
    ∧ source_layout self' = source_layout self
    ∧ backstage self' = backstage self
    ∧ Forall fresh more
    ∧ sublist (label <$> more) labels.

(** An action of the other threads that leaves the worlds in [busy]. *)
Definition keeps {World} (busy : World → Prop) (act : action (World := World)) : Prop :=
  match act with
  | Other f => ∀ w, busy w → busy (f w)
  | Step | Stop => True
  end.

(** The steps of the first inner loop. *)
Definition message_calls : list event := [Call MsgEmpty; Call ParseJson; Call ResetVals].

(** The two timers of a window whose monitor started. *)
Definition first_update : QTimer :=
  {| interval := 1000; single_shot := true; timeout := UpdateStatus true |}.
Definition periodic_update : QTimer :=
  {| interval := 2000; single_shot := false; timeout := UpdateStatus false |}.

(** A backend whose TCP client finds no JS8Call to connect to. *)
Definition refused : Backend :=
  {| JS8CallMonitor := Ok ();
     new_tcp_client := Raise (OSError "[Errno 111] Connection refused");
     new_udp_server := Ok () |}.

(** [JS8CallMonitorGUI()] on the file as it is found: [load_config]
    begins with [config.read('config')], outside any [try]. *)
Definition JS8CallMonitorGUI_new (d : found) (b : Backend) : result JS8CallMonitorGUI :=
  fs ← config_read d; JS8CallMonitorGUI_init fs b.

(** A monitor whose message queue is never empty. *)
#[global] Instance flood_monitor : Monitor nat := {|
  msgQueue_empty w := Ok false;
  cmdQueue_empty w := Ok true;
  parse_json w := (S w, Ok ());
  parse_cmd w := (w, Ok ());
  reset_vals w := (w, Ok ())
|}.

End Window.

(** ** The settings dialog at work: forms, Save and Browse *)

Module Dialog.

Import Python configparser Settings.

(** [SettingsDialog()] on the file as it is found: the constructor
    begins with [self.config.read('config')]. *)
Definition SettingsDialog_new (d : found) : result SettingsDialog :=
  fs ← config_read d; SettingsDialog_init fs.

(** What a widget of a kind can hold: a spin box keeps its value within
    its range. *)
Definition fits (k : widget) (c : content) : Prop :=
  match k, c with
  | QLineEdit, Text _ => True
  | QCheckBox, Checked _ => True
  | QSpinBox minimum maximum, Value n => minimum ≤ n ≤ maximum
  | _, _ => False
  end.

(** A form with all its fields, each holding what its widget can. *)
Definition valid (form : gmap string content) : Prop :=
  ∀ b, b ∈ bindings → ∃ c, form !! attr b = Some c ∧ fits (kind b) c.

(** The string [save_config] makes of what a widget holds. *)
Definition written (c : content) : string :=
  match c with
  | Text s => s
  | Checked b => str_bool_lower b
  | Value n => str_int n
  end.

(** A value [set] takes: the empty one, which it does not look at, or
    one that passes [before_set]. *)
Definition settable (value : string) : bool :=
  bool_decide (value = EmptyString) || is_ok (before_set value).

(** A range a [QSpinBox] can have. *)
Definition ranged (b : binding) : Prop :=
  match kind b with
  | QSpinBox minimum maximum =>
      -2147483648 ≤ minimum ∧ minimum ≤ maximum ∧ maximum ≤ 2147483647
  | _ => True
  end.

#[global] Instance ranged_dec b : Decision (ranged b).
Proof. unfold ranged. destruct (kind b); apply _. Defined.

(** Whether a check box is ticked. *)
Definition ticked (form : gmap string content) (a : string) : bool :=
  match form !! a with
  | Some (Checked c) => c
  | _ => false
  end.

(** The indicators the status window makes of a form once saved. *)
Definition indicators_of (form : gmap string content) : list (string * string) :=
  ((if ticked form "tcp_enabled" then ("JS8Call (TCP)", "TCP") else ("JS8Call (UDP)", "UDP"))
   :: (if ticked form "n1mm_enabled" then [("N1MM+", "UDP")] else [])
   ++ (if ticked form "gt_enabled" then [("GridTracker", "UDP")] else [])
   ++ (if ticked form "gs_msg_enabled" || ticked form "gs_spot_enabled"
       then [("GeoServer", "UDP")] else [])
   ++ (if ticked form "yaac_enabled" then [("YAAC", "FILE")] else [])
   ++ (if ticked form "adif_enabled" then [("ADIF", "FILE")] else []))%list.

(** The line edits whose text the status window reads. *)
Definition window_texts : list string :=
  ["tcp_host_edit"; "udp_host_edit"; "n1mm_host_edit"; "gt_host_edit"; "gs_host_edit";
   "yaac_logfile_edit"; "adif_logfile_edit"].

(** The line edits with a Browse button. *)
Definition browsable : list string :=
  ["yaac_logfile_edit"; "adif_logfile_edit"; "db_location_edit"; "logfile_edit"].

(** [browse_file] and [browse_directory] on the line edit [a]: the
    dialog returns the name chosen, empty when cancelled. *)
Definition browse (choice : string) (a : string) (form : gmap string content)
  : gmap string content :=
  if decide (choice = EmptyString) then form else <[a := Text choice]> form.

End Dialog.

(** * Properties *)

(** ** Python *)

Module PythonFacts.

Example strtobool_yes : strtobool "Yes" = Ok 1.
Proof. reflexivity. Qed.

Example strtobool_maybe : strtobool "maybe" = Raise (ValueError "invalid truth value 'maybe'").
Proof. reflexivity. Qed.

Example int_padded : int " 0080 " = Ok 80.
Proof. reflexivity. Qed.

Example int_underscore : int "-1_000" = Ok (-1000).
Proof. reflexivity. Qed.

Example int_bad : is_ok (int "8o80") = false.
Proof. reflexivity. Qed.

End PythonFacts.

(** ** The configuration parser *)

Module ConfigFacts.

Import configparser.

(** An option of [DEFAULT] shows in every section; a reference is
    replaced by the option it names; a lone percent sign is refused, on
    reading and on writing. *)
Example get_inherited : get Samples.layered "TCP" "Port" "2171" = Ok "9999".
Proof. reflexivity. Qed.

Example get_missing_section : get Samples.layered "SMTP" "port" "587" = Ok "587".
Proof. reflexivity. Qed.

Example get_interpolated :
  get Samples.layered "DEBUG" "logfile" "js8monitor.log" = Ok "/var/log/js8.log".
Proof. reflexivity. Qed.

Example get_lone_percent :
  get Samples.layered "DEBUG" "rate" "0"
  = Raise (InterpolationSyntaxError "rate" "DEBUG"
             "'%' must be followed by '%' or '(', found: '%'").
Proof. reflexivity. Qed.

Example set_lone_percent :
  set Samples.layered "DEBUG" "rate" "50%"
  = Raise (ValueError "invalid interpolation syntax in '50%' at position 2").
Proof. reflexivity. Qed.

Example set_missing_section :
  set Samples.layered "AUTH" "token" "x" = Raise (NoSectionError "AUTH").
Proof. reflexivity. Qed.

Lemma bind_raise {A B} (m : result A) (f : A → result B) (e : exn) :
  m ≫= f = Raise e → m = Raise e ∨ ∃ a, m = Ok a ∧ f a = Raise e.
Proof.
  destruct m as [a|e']; unfold mbind, result_bind; intros eq;
    [right; eauto | left; by simplify_eq].
Qed.

Lemma bind_ok {A B} (m : result A) (f : A → result B) (b : B) :
  m ≫= f = Ok b → ∃ a, m = Ok a ∧ f a = Ok b.
Proof. destruct m as [a|e']; unfold mbind, result_bind; intros eq; [eauto | done]. Qed.

(** A value without a percent sign is its own interpolation. *)
Lemma interpolate_loop_plain deeper option section rawval map fuel v :
  (String.length v < fuel)%nat → contains "%" v = false →
  interpolate_loop deeper option section rawval map fuel v = Ok v.
Proof.
  revert v. induction fuel as [|fuel IH]; intros v enough plain; [lia |].
  destruct v as [|c r]; [done |].
  simpl in plain. destruct (decide ("%"%char = c)) as [|ne]; [done |].
  cbn [interpolate_loop]. rewrite decide_False by done.
  rewrite IH; [done | simpl in enough; lia | done].
Qed.

Lemma interpolate_plain levels option section rawval map v :
  contains "%" v = false →
  interpolate_some (S levels) option section rawval map v = Ok v.
Proof. intros plain. cbn [interpolate_some]. apply interpolate_loop_plain; [lia | done]. Qed.

(** Interpolation raises its own errors only. *)
Lemma interpolate_loop_not_key_error deeper option section rawval map fuel rest e :
  (∀ v e', deeper v = Raise e' → is_key_error e' = false) →
  interpolate_loop deeper option section rawval map fuel rest = Raise e →
  is_key_error e = false.
Proof.
  intros deep. revert rest. induction fuel as [|fuel IH]; intros rest; [done |].
  destruct rest as [|c r]; [done |]. cbn [interpolate_loop].
  destruct (decide (c = "%"%char)) as [-> | ne].
  - destruct r as [|c' r']; [intros eq; by simplify_eq |].
    destruct (decide (c' = "%"%char)) as [-> | ne'].
    { intros [eq | (a & _ & eq)]%bind_raise; [by eapply IH | done]. }
    destruct (decide (c' = "("%char)) as [-> | ne''];
      [| intros eq; by simplify_eq].
    destruct (key_match r') as [[[|n name] r'']|]; try (intros eq; by simplify_eq).
    cbv zeta. destruct (map !! _) as [v|]; [| intros eq; by simplify_eq].
    intros [eq | (v' & _ & [eq | (a & _ & eq)]%bind_raise)]%bind_raise.
    + destruct (contains "%" v); [by eapply deep | done].
    + by eapply IH.
    + done.
  - intros [eq | (a & _ & eq)]%bind_raise; [by eapply IH | done].
Qed.

Lemma interpolate_not_key_error levels option section rawval map rest e :
  interpolate_some levels option section rawval map rest = Raise e →
  is_key_error e = false.
Proof.
  revert rest e. induction levels as [|levels IH]; intros rest e; cbn [interpolate_some].
  - intros eq. by simplify_eq.
  - apply interpolate_loop_not_key_error. intros v e'. apply IH.
Qed.

Lemma get_not_key_error cfg section option fallback e :
  get cfg section option fallback = Raise e → is_key_error e = false.
Proof.
  unfold get. destruct (unify_values cfg section) as [d|]; [| done].
  destruct (d !! _) as [value|]; [| done].
  apply interpolate_not_key_error.
Qed.

Lemma get_fallback cfg section option fallback :
  visible cfg section option = None → get cfg section option fallback = Ok fallback.
Proof.
  unfold visible, get. destruct (unify_values cfg section) as [d|]; [| done].
  by intros ->.
Qed.

Lemma get_plain cfg section option fallback v :
  visible cfg section option = Some v → contains "%" v = false →
  get cfg section option fallback = Ok v.
Proof.
  unfold visible, get. destruct (unify_values cfg section) as [d|]; [| done].
  intros -> plain. by apply interpolate_plain.
Qed.

Lemma has_option_visible cfg section option :
  section ≠ EmptyString → section ≠ default_section →
  has_option cfg section option = false → visible cfg section option = None.
Proof.
  unfold has_option, visible, unify_values. intros ne ne'.
  rewrite (decide_False (P := section = EmptyString ∨ section = default_section))
    by (intros [|]; done).
  destruct (sections cfg !! section) as [d|]; [| by rewrite decide_False].
  intros [own dflt]%orb_false_elim.
  apply bool_decide_eq_false_1 in own, dflt.
  apply eq_None_not_Some. intros [v [eq' | [_ eq']]%lookup_union_Some_raw].
  - apply own. eauto.
  - apply dflt. eauto.
Qed.

(** A value without a percent sign is accepted by [set] as it is. *)
Lemma remove_escaped_plain fuel v : contains "%" v = false → remove_escaped fuel v = v.
Proof.
  revert v. induction fuel as [|fuel IH]; intros [|c r]; try done.
  simpl. destruct (decide ("%"%char = c)) as [|ne]; [done |].
  intros plain. rewrite decide_False by done. by rewrite IH.
Qed.

Lemma remove_keys_plain fuel v : contains "%" v = false → remove_keys fuel v = v.
Proof.
  revert v. induction fuel as [|fuel IH]; intros [|c r]; try done.
  simpl. destruct (decide ("%"%char = c)) as [|ne]; [done |].
  intros plain. rewrite decide_False by done. by rewrite IH.
Qed.

Lemma find_plain v : contains "%" v = false → find "%" v = None.
Proof.
  induction v as [|c r IH]; [done |]. simpl.
  destruct (decide ("%"%char = c)); [done |]. intros plain. by rewrite IH.
Qed.

Lemma before_set_plain v : contains "%" v = false → before_set v = Ok v.
Proof.
  intros plain. unfold before_set.
  by rewrite remove_escaped_plain, remove_keys_plain, find_plain.
Qed.

(** [set] on a section other than [DEFAULT]: the section must exist, and
    one option of it is written. *)
Lemma set_ok cfg section option value cfg' :
  section ≠ EmptyString → section ≠ default_section →
  set cfg section option value = Ok cfg' →
  ∃ d, sections cfg !! section = Some d
       ∧ defaults cfg' = defaults cfg
       ∧ sections cfg' = <[section := <[optionxform option := value]> d]> (sections cfg).
Proof.
  unfold set. intros ne ne' (v & eq & eq')%bind_ok.
  assert (v = value) as ->.
  { destruct (decide (value = EmptyString)); [by simplify_eq |].
    unfold before_set in eq. by destruct (find _ _); simplify_eq. }
  rewrite decide_False in eq' by (intros [|]; done).
  destruct (sections cfg !! section) as [d|]; [| done]. simplify_eq. eauto.
Qed.

Lemma set_stored cfg section option value cfg' s o :
  section ≠ EmptyString → section ≠ default_section →
  set cfg section option value = Ok cfg' →
  stored cfg' s o =
  if decide (s = section ∧ o = optionxform option) then Some value else stored cfg s o.
Proof.
  intros ne ne' (d & eq & dflt & secs)%set_ok; [| done..].
  unfold stored. rewrite dflt, secs.
  destruct (decide (s = default_section)) as [-> | not_default].
  { rewrite decide_False; [done | intros [? _]; congruence]. }
  destruct (decide (s = section)) as [-> | other].
  - rewrite lookup_insert_eq, eq. simpl.
    destruct (decide (o = optionxform option)) as [-> | other].
    + rewrite decide_True by done. by rewrite lookup_insert_eq.
    + rewrite decide_False by (intros [_ ?]; done). by rewrite lookup_insert_ne.
  - rewrite lookup_insert_ne by done. rewrite decide_False; [done | intros [? _]; done].
Qed.

Lemma set_has_section cfg section option value cfg' s :
  section ≠ EmptyString → section ≠ default_section →
  set cfg section option value = Ok cfg' →
  has_section cfg' s = has_section cfg s.
Proof.
  intros ne ne' (d & eq & dflt & secs)%set_ok; [| done..].
  unfold has_section. rewrite secs. apply bool_decide_ext.
  destruct (decide (s = section)) as [-> | other].
  - rewrite lookup_insert_eq, eq. split; eauto.
  - by rewrite lookup_insert_ne.
Qed.

Lemma set_plain cfg section option value d :
  section ≠ EmptyString → section ≠ default_section →
  sections cfg !! section = Some d → contains "%" value = false →
  is_ok (set cfg section option value) = true.
Proof.
  intros ne ne' eq plain. unfold set.
  assert ((if decide (value = EmptyString) then Ok value else before_set value)
          = Ok value) as ->.
  { destruct (decide _); [done | by apply before_set_plain]. }
  simpl. rewrite decide_False by (intros [|]; done). by rewrite eq.
Qed.



End ConfigFacts.

(** ** The status window *)

Module GuiFacts.

Import configparser Gui Samples.

(** *** Connection status *)

Example check_connection_tcp : check_connection tcp_status = (true, set_connected true tcp_status).
Proof. reflexivity. Qed.

Example check_connection_file : check_connection yaac_status = (false, yaac_status).
Proof. reflexivity. Qed.

(** C1, as stated, fails: for the protocol TCP the value returned is not
    the flag of a client object.  A TCP record checked while the client
    is not connected still answers [true]. *)
Lemma check_connection_not_mirrored :
  ¬ (∀ (self : ConnectionStatus) (client : tcp_client),
       (protocol self = "UDP" →
        check_connection self = (true, set_connected true self))
       ∧ (protocol self = "TCP" →
          (check_connection self).1 = client_connected client)).
Proof.
  intros claim.
  destruct (claim tcp_status {| client_connected := false |}) as [_ mirrored].
  specialize (mirrored eq_refl). discriminate mirrored.
Qed.

(** C1, amended: [check_connection] returns [True] and sets the flag to
    [True] for the protocol UDP and, by the same hard-coded assignment,
    for the protocol TCP; no client object is read.  For any other
    protocol it returns the flag as it stands and changes nothing. *)
Theorem check_connection_hard_coded (self : ConnectionStatus) :
  (protocol self = "UDP" ∨ protocol self = "TCP" →
   check_connection self = (true, set_connected true self))
  ∧ (protocol self ≠ "UDP" → protocol self ≠ "TCP" →
     check_connection self = (connected self, self)).
Proof.
  unfold check_connection. split.
  - intros [udp | tcp].
    + rewrite decide_True by done. done.
    + destruct (decide (protocol self = "UDP")); [done |].
      rewrite decide_True by done. done.
  - intros not_udp not_tcp. by rewrite !decide_False.
Qed.

Lemma check_connection_hard_coded_tcp :
  check_connection tcp_status = (true, set_connected true tcp_status)
  ∧ check_connection yaac_status = (connected yaac_status, yaac_status).
Proof.
  split.
  - apply (check_connection_hard_coded tcp_status). right. reflexivity.
  - apply (check_connection_hard_coded yaac_status); discriminate.
Defined.

(** The window loaded from the sample: the section N1MM has no option
    [port], the section YAAC no option [logfile]. *)
Example load_config_full :
  (λ i, (name (status i), port (status i))) <$> status_indicators (loaded (file full true))
  = [("JS8Call (TCP)", "0002442"); ("N1MM+", "12060"); ("YAAC", "yaac.log")].
Proof. by vm_compute. Qed.

(** *** Status indicators and timers *)

Lemma update_status_forced gui :
  status_indicators (update_status true gui) =
  (λ i, {| status := set_connected true (status i); led := Green |})
  <$> status_indicators gui.
Proof.
  unfold update_status. simpl. apply list_fmap_ext. intros _ [st l] _.
  unfold check_status, check_connection, update_led, set_connected. simpl.
  by repeat destruct (decide _).
Qed.

Lemma fires_single_shot interval slot elapsed :
  fires {| interval := interval; single_shot := true; timeout := slot |} elapsed = true
  ↔ elapsed = interval.
Proof. unfold fires. simpl. apply Z.eqb_eq. Qed.

Lemma fires_periodic interval slot elapsed :
  0 < interval →
  fires {| interval := interval; single_shot := false; timeout := slot |} elapsed = true
  ↔ ∃ k, 0 < k ∧ elapsed = interval * k.
Proof.
  intros positive. unfold fires. simpl.
  rewrite andb_true_iff, Z.ltb_lt, Z.eqb_eq. split.
  - intros [after divides]. exists (elapsed / interval).
    pose proof (Z.div_mod elapsed interval) as eq. split; nia.
  - intros (k & after & ->). split; [nia |].
    rewrite Z.mul_comm. apply Z.mod_mul. lia.
Qed.

Lemma start_monitor_timers fs b self :
  monitor_thread self = false →
  monitor_thread (start_monitor fs b self) = true →
  timers (start_monitor fs b self) =
  (timers self
   ++ [{| interval := 1000; single_shot := true; timeout := UpdateStatus true |}])%list.
Proof.
  unfold start_monitor, failed_to_start. intros fresh.
  destruct (JS8CallMonitor b); simpl; [| congruence].
  destruct (tcp_enabled (read fs)).
  - destruct (new_tcp_client b); simpl; [done | congruence].
  - destruct (new_udp_server b); simpl; [done | congruence].
Qed.

(** *** [load_config] *)


Lemma section_get_present config section option fallback :
  has_section config section = true →
  section_get config section option fallback = get config section option fallback.
Proof.
  intros present. unfold section_get, getitem. rewrite present.
  by rewrite andb_false_r.
Qed.



Lemma passes_ok {A} (a : A) : passes (Ok a).
Proof. intros e eq. done. Qed.

Lemma passes_bind {A B} (m : result A) (f : A → result B) :
  passes m → (∀ a, passes (f a)) → passes (m ≫= f).
Proof.
  intros pm pf e [eq | (a & _ & eq)]%ConfigFacts.bind_raise; [by apply pm | by eapply pf].
Qed.

Lemma section_get_passes config section option fallback :
  has_section config section = true →
  passes (section_get config section option fallback).
Proof.
  intros present e. rewrite section_get_present by done.
  apply ConfigFacts.get_not_key_error.
Qed.

Lemma strtobool_passes val : passes (strtobool val).
Proof. unfold strtobool. intros e. repeat case_bool_decide; intros eq; by simplify_eq. Qed.

Lemma enabled_passes config section option :
  has_section config section = true → passes (enabled config section option).
Proof.
  intros present. unfold enabled.
  apply passes_bind; [by apply section_get_passes |]. intros val.
  apply passes_bind; [apply strtobool_passes |]. intros n. apply passes_ok.
Qed.



Ltac stage_passes :=
  intros present; unfold load_source, load_n1mm, load_gridtracker, load_geoserver,
    load_yaac, load_adif;
  repeat first
    [ apply passes_ok
    | apply passes_bind; [first [by apply enabled_passes | by apply section_get_passes] |];
      intros ?
    | match goal with |- passes (if ?b then _ else _) => destruct b end ].












Lemma load_adif_passes config self :
  has_section config "ADIF" = true → passes (load_adif config self).
Proof. stage_passes. Qed.

















(** *** The monitor thread *)

Section thread.
Context {World : Type} `{!Monitor World}.

Implicit Types (self : MonitorThread World) (w : World).

Lemma step_test_running self ev self' :
  step self = Some (ev, self') → is_test ev = true ↔ at_point self = AtWhile.
Proof.
  destruct self as [r p w]. unfold step, test, call. simpl.
  destruct p; simpl; intros eq; simplify_eq; try (split; done).
  - destruct r; simplify_eq; done.
  - destruct (msgQueue_empty w) as [[]|]; simplify_eq; split; done.
  - destruct (parse_json w) as [? []]; simplify_eq; split; done.
  - destruct (reset_vals w) as [? []]; simplify_eq; split; done.
  - destruct (cmdQueue_empty w) as [[]|]; simplify_eq; split; done.
  - destruct (parse_cmd w) as [? []]; simplify_eq; split; done.
  - destruct (reset_vals w) as [? []]; simplify_eq; split; done.
Qed.

(** Away from the test of the outer loop a step does not read the flag. *)
Lemma step_stop self :
  at_point self ≠ AtWhile →
  step (stop self) = prod_map id stop <$> step self.
Proof.
  destruct self as [r p w]. unfold step, test, call, stop, goto. simpl.
  destruct p; simpl; intros ne; try done.
  - by destruct (msgQueue_empty w) as [[]|].
  - by destruct (parse_json w) as [? []].
  - by destruct (reset_vals w) as [? []].
  - by destruct (cmdQueue_empty w) as [[]|].
  - by destruct (parse_cmd w) as [? []].
  - by destruct (reset_vals w) as [? []].
Qed.

Lemma steps_stop n self :
  Forall (λ ev, is_test ev = false) (steps n self).1 →
  steps n (stop self) = ((steps n self).1, stop (steps n self).2).
Proof.
  revert self. induction n as [|n IH]; intros self; [done |]. simpl.
  destruct (step self) as [[ev self']|] eqn:eq.
  - destruct (steps n self') as [evs self''] eqn:eqs. simpl.
    intros [quiet rest]%Forall_cons.
    rewrite step_stop, eq; simpl.
    + rewrite IH, eqs; [done |]. by rewrite eqs.
    + intros at_while. apply (step_test_running _ _ _ eq) in at_while. congruence.
  - intros _. destruct (decide (at_point self = AtWhile)) as [at_while | body].
    + destruct self as [r p w]. simpl in *. subst p. unfold step in eq. simpl in eq.
      by destruct r.
    + by rewrite step_stop, eq.
Qed.

Lemma steps_add a b self :
  steps (a + b) self =
  (((steps a self).1 ++ (steps b (steps a self).2).1)%list, (steps b (steps a self).2).2).
Proof.
  revert self. induction a as [|a IH]; intros self; simpl.
  - by destruct (steps b self).
  - destruct (step self) as [[ev self']|] eqn:eq; simpl.
    + rewrite IH. by destruct (steps a self'), (steps b _).
    + destruct b; simpl; [done |]. by rewrite eq.
Qed.

Lemma schedule_steps n self : schedule (replicate n Step) self = steps n self.
Proof.
  revert self. induction n as [|n IH]; intros self; [done |]. simpl.
  destruct (step self) as [[ev self']|] eqn:eq.
  - by rewrite IH.
  - rewrite IH. destruct n; simpl; [done |]. by rewrite eq.
Qed.

(** Once the flag is down, no schedule begins another pass. *)
Lemma schedule_stopped acts self :
  running self = false → TestRunning true ∉ (schedule acts self).1.
Proof.
  revert self. induction acts as [|act acts IH]; intros self down; simpl.
  - apply not_elem_of_nil.
  - destruct act as [| |f].
    + destruct (step self) as [[ev self']|] eqn:eq; [|by apply IH].
      assert (running self' = false ∧ ev ≠ TestRunning true) as [down' quiet].
      { destruct self as [r p w]. simpl in down. subst r.
        unfold step, test, call, goto in eq. simpl in eq.
        destruct p; simplify_eq; try done.
        - by destruct (msgQueue_empty w) as [[]|]; simplify_eq.
        - by destruct (parse_json w) as [? []]; simplify_eq.
        - by destruct (reset_vals w) as [? []]; simplify_eq.
        - by destruct (cmdQueue_empty w) as [[]|]; simplify_eq.
        - by destruct (parse_cmd w) as [? []]; simplify_eq.
        - by destruct (reset_vals w) as [? []]; simplify_eq. }
      specialize (IH self' down').
      destruct (schedule acts self') as [evs self'']. simpl in *.
      intros [eq' | elem]%elem_of_cons; [congruence | done].
    + by apply IH.
    + by apply IH.
Qed.

(** The thread returns from the test of the flag only. *)
Lemma step_returned self ev self' :
  step self = Some (ev, self') → at_point self' = Returned →
  at_point self = AtWhile ∧ running self = false ∧ ev = TestRunning false.
Proof.
  destruct self as [r p w]. unfold step, test, call, goto. simpl.
  destruct p; simpl; intros eq; simplify_eq; simpl; try done.
  - destruct r; simplify_eq; simpl; done.
  - by destruct (msgQueue_empty w) as [[]|]; simplify_eq.
  - by destruct (parse_json w) as [? []]; simplify_eq.
  - by destruct (reset_vals w) as [? []]; simplify_eq.
  - by destruct (cmdQueue_empty w) as [[]|]; simplify_eq.
  - by destruct (parse_cmd w) as [? []]; simplify_eq.
  - by destruct (reset_vals w) as [? []]; simplify_eq.
Qed.

(** An exception raised in the body leads to the handler, which emits
    its string and goes back to the test of the flag. *)
Lemma steps_raised self e :
  raised self = Some e →
  ∃ f w, steps 2 self = ([Call f; Emit (str e)], goto AtWhile w self).
Proof.
  destruct self as [r p w]. unfold raised, steps, step, test, call, goto. simpl.
  destruct p; simpl; try done.
  - destruct (msgQueue_empty w) as [[]|]; intros; simplify_eq; simpl; eauto.
  - destruct (parse_json w) as [? []]; simpl; intros; simplify_eq; simpl; eauto.
  - destruct (reset_vals w) as [? []]; simpl; intros; simplify_eq; simpl; eauto.
  - destruct (cmdQueue_empty w) as [[]|]; intros; simplify_eq; simpl; eauto.
  - destruct (parse_cmd w) as [? []]; simpl; intros; simplify_eq; simpl; eauto.
  - destruct (reset_vals w) as [? []]; simpl; intros; simplify_eq; simpl; eauto.
Qed.

(** *** One pass of the loop in which nothing raises *)

Lemma quiet_msg_round self :
  at_point self = AtMsgEmpty →
  msgQueue_empty (world self) = Ok false →
  (parse_json (world self)).2 = Ok () →
  (reset_vals (parse_json (world self)).1).2 = Ok () →
  steps 3 self =
  ([Call MsgEmpty; Call ParseJson; Call ResetVals],
   goto AtMsgEmpty (handle_msg (world self)) self).
Proof.
  destruct self as [r p w]. simpl. intros -> some parsed reset.
  unfold step, test, call, handle_msg. simpl. rewrite some. simpl.
  destruct (parse_json w) as [w1 r1]. simpl in parsed, reset |- *. subst r1. simpl.
  destruct (reset_vals w1) as [w2 r2]. simpl in reset |- *. by subst r2.
Qed.

Lemma quiet_cmd_round self :
  at_point self = AtCmdEmpty →
  cmdQueue_empty (world self) = Ok false →
  (parse_cmd (world self)).2 = Ok () →
  (reset_vals (parse_cmd (world self)).1).2 = Ok () →
  steps 3 self =
  ([Call CmdEmpty; Call ParseCmd; Call ResetVals],
   goto AtCmdEmpty (handle_cmd (world self)) self).
Proof.
  destruct self as [r p w]. simpl. intros -> some parsed reset.
  unfold step, test, call, handle_cmd. simpl. rewrite some. simpl.
  destruct (parse_cmd w) as [w1 r1]. simpl in parsed, reset |- *. subst r1. simpl.
  destruct (reset_vals w1) as [w2 r2]. simpl in reset |- *. by subst r2.
Qed.

Lemma quiet_msgs n self :
  at_point self = AtMsgEmpty → msg_rounds n (world self) →
  steps (3 * n + 1) self =
  ((mjoin (replicate n [Call MsgEmpty; Call ParseJson; Call ResetVals])
    ++ [Call MsgEmpty])%list,
   goto AtCmdEmpty (Nat.iter n handle_msg (world self)) self).
Proof.
  revert self. induction n as [|n IH]; intros self here rounds.
  - destruct self as [r p w]. simpl in *. subst p.
    unfold step, test. simpl. by rewrite rounds.
  - destruct rounds as (some & parsed & reset & rounds).
    replace (3 * S n + 1)%nat with (3 + (3 * n + 1))%nat by lia.
    rewrite steps_add, quiet_msg_round by done.
    simpl fst. simpl snd. rewrite IH by done.
    simpl. by rewrite <- Nat.iter_succ_r.
Qed.

Lemma quiet_cmds m self :
  at_point self = AtCmdEmpty → cmd_rounds m (world self) →
  steps (3 * m + 2) self =
  ((mjoin (replicate m [Call CmdEmpty; Call ParseCmd; Call ResetVals])
    ++ [Call CmdEmpty; Sleep 500])%list,
   goto AtWhile (Nat.iter m handle_cmd (world self)) self).
Proof.
  revert self. induction m as [|m IH]; intros self here rounds.
  - destruct self as [r p w]. simpl in *. subst p.
    unfold step, test. simpl. by rewrite rounds.
  - destruct rounds as (some & parsed & reset & rounds).
    replace (3 * S m + 2)%nat with (3 + (3 * m + 2))%nat by lia.
    rewrite steps_add, quiet_cmd_round by done.
    simpl fst. simpl snd. rewrite IH by done.
    simpl. by rewrite <- Nat.iter_succ_r.
Qed.

(** One pass from the test of the flag, with the flag up, when nothing
    raises. *)
Lemma quiet_pass n m self :
  at_point self = AtWhile → running self = true →
  msg_rounds n (world self) →
  cmd_rounds m (Nat.iter n handle_msg (world self)) →
  steps (3 * n + 3 * m + 4) self =
  (iteration n m,
   goto AtWhile (Nat.iter m handle_cmd (Nat.iter n handle_msg (world self))) self).
Proof.
  intros here up msgs cmds.
  replace (3 * n + 3 * m + 4)%nat with (1 + ((3 * n + 1) + (3 * m + 2)))%nat by lia.
  rewrite (steps_add 1).
  assert (steps 1 self = ([TestRunning true], goto AtMsgEmpty (world self) self)) as ->.
  { destruct self as [r p w]. simpl in *. by subst r p. }
  simpl fst. simpl snd.
  rewrite steps_add, (quiet_msgs n) by done. simpl fst. simpl snd.
  rewrite (quiet_cmds m) by done.
  unfold iteration, goto. simpl. by rewrite <- !app_assoc.
Qed.

(** *** One pass of the loop under a queue discipline

    The calls into [js8call_monitor] are parameters.  For the pass over
    the queues they are taken to return, to tell an empty queue by its
    number of items, and to take one item per round. *)

Section queue_discipline.
Variables msg_count cmd_count : World → nat.
Hypothesis msg_empty_count :
  ∀ w, msgQueue_empty w = Ok (bool_decide (msg_count w = 0%nat)).
Hypothesis cmd_empty_count :
  ∀ w, cmdQueue_empty w = Ok (bool_decide (cmd_count w = 0%nat)).
Hypothesis parse_json_returns : ∀ w, (parse_json w).2 = Ok ().
Hypothesis parse_cmd_returns : ∀ w, (parse_cmd w).2 = Ok ().
Hypothesis reset_vals_returns : ∀ w, (reset_vals w).2 = Ok ().
Hypothesis handle_msg_count : ∀ w, msg_count (handle_msg w) = pred (msg_count w).
Hypothesis handle_cmd_count : ∀ w, cmd_count (handle_cmd w) = pred (cmd_count w).

Lemma msg_round self :
  at_point self = AtMsgEmpty → msg_count (world self) ≠ 0%nat →
  steps 3 self =
  ([Call MsgEmpty; Call ParseJson; Call ResetVals],
   goto AtMsgEmpty (handle_msg (world self)) self).
Proof.
  destruct self as [r p w]. simpl. intros -> some.
  unfold step, test, call, handle_msg. simpl.
  rewrite msg_empty_count, bool_decide_false by done. simpl.
  pose proof (parse_json_returns w) as pj. destruct (parse_json w) as [w1 r1].
  simpl in pj. subst r1. simpl.
  pose proof (reset_vals_returns w1) as rv. destruct (reset_vals w1) as [w2 r2].
  simpl in rv. subst r2. done.
Qed.

Lemma cmd_round self :
  at_point self = AtCmdEmpty → cmd_count (world self) ≠ 0%nat →
  steps 3 self =
  ([Call CmdEmpty; Call ParseCmd; Call ResetVals],
   goto AtCmdEmpty (handle_cmd (world self)) self).
Proof.
  destruct self as [r p w]. simpl. intros -> some.
  unfold step, test, call, handle_cmd. simpl.
  rewrite cmd_empty_count, bool_decide_false by done. simpl.
  pose proof (parse_cmd_returns w) as pc. destruct (parse_cmd w) as [w1 r1].
  simpl in pc. subst r1. simpl.
  pose proof (reset_vals_returns w1) as rv. destruct (reset_vals w1) as [w2 r2].
  simpl in rv. subst r2. done.
Qed.

Lemma drain_msgs n self :
  at_point self = AtMsgEmpty → msg_count (world self) = n →
  steps (3 * n + 1) self =
  ((mjoin (replicate n [Call MsgEmpty; Call ParseJson; Call ResetVals])
    ++ [Call MsgEmpty])%list,
   goto AtCmdEmpty (Nat.iter n handle_msg (world self)) self).
Proof.
  revert self. induction n as [|n IH]; intros self here count.
  - destruct self as [r p w]. simpl in *. subst p.
    unfold step, test. simpl. rewrite msg_empty_count, bool_decide_true by done. done.
  - replace (3 * S n + 1)%nat with (3 + (3 * n + 1))%nat by lia.
    rewrite steps_add, msg_round by (done || lia). simpl fst. simpl snd.
    rewrite IH; [| done | simpl; rewrite handle_msg_count; lia].
    simpl. by rewrite <- Nat.iter_succ_r.
Qed.

Lemma drain_cmds m self :
  at_point self = AtCmdEmpty → cmd_count (world self) = m →
  steps (3 * m + 2) self =
  ((mjoin (replicate m [Call CmdEmpty; Call ParseCmd; Call ResetVals])
    ++ [Call CmdEmpty; Sleep 500])%list,
   goto AtWhile (Nat.iter m handle_cmd (world self)) self).
Proof.
  revert self. induction m as [|m IH]; intros self here count.
  - destruct self as [r p w]. simpl in *. subst p.
    unfold step, test. simpl. rewrite cmd_empty_count, bool_decide_true by done. done.
  - replace (3 * S m + 2)%nat with (3 + (3 * m + 2))%nat by lia.
    rewrite steps_add, cmd_round by (done || lia). simpl fst. simpl snd.
    rewrite IH; [| done | simpl; rewrite handle_cmd_count; lia].
    simpl. by rewrite <- Nat.iter_succ_r.
Qed.

(** One pass from the test of the flag, with the flag up. *)
Lemma pass self :
  at_point self = AtWhile → running self = true →
  let n := msg_count (world self) in
  let w1 := Nat.iter n handle_msg (world self) in
  let m := cmd_count w1 in
  steps (3 * n + 3 * m + 4) self =
  (iteration n m, goto AtWhile (Nat.iter m handle_cmd w1) self).
Proof.
  intros here up n w1 m.
  replace (3 * n + 3 * m + 4)%nat with (1 + ((3 * n + 1) + (3 * m + 2)))%nat by lia.
  rewrite (steps_add 1).
  assert (steps 1 self = ([TestRunning true], goto AtMsgEmpty (world self) self)) as ->.
  { destruct self as [r p w]. simpl in *. by subst r p. }
  simpl fst. simpl snd.
  rewrite steps_add, (drain_msgs n) by done. simpl fst. simpl snd.
  rewrite (drain_cmds m) by done.
  unfold iteration, goto. simpl. by rewrite <- !app_assoc.
Qed.

End queue_discipline.

End thread.

(** A pass tests the flag once, at its start. *)
Lemma iteration_tests n m :
  ∃ body, iteration n m = TestRunning true :: body
          ∧ Forall (λ ev, is_test ev = false) body.
Proof.
  eexists. split; [reflexivity |].
  assert (∀ k round, Forall (λ ev, is_test ev = false) round →
            Forall (λ ev : event, is_test ev = false) (mjoin (replicate k round)))
    as rounds.
  { intros k round quiet. induction k as [|k IH]; simpl; [done |].
    by apply Forall_app. }
  repeat first
    [ apply Forall_app; split
    | apply rounds
    | apply Forall_cons; split; [done |]
    | apply Forall_nil_2 ].
Qed.

Lemma list_discipline :
  discipline (World := queues) (λ w, length (msgQueue w)) (λ w, length (cmdQueue w)).
Proof.
  split; try done.
  - intros [[|msg msgs] cmds]; done.
  - intros [msgs [|cmd cmds]]; done.
Qed.

(** C6, as stated, fails: with an empty message at the head of the
    queue [parse_json] raises in the first round; the pass ends at the
    handler, the second message is left in the queue, the command queue
    is not looked at and the thread does not sleep before the next
    test of the flag. *)
Lemma pass_cut_short_by_exception :
  ¬ (∀ (World : Type) (M : Monitor World) (self : MonitorThread World),
       at_point self = AtWhile → running self = true →
       ∃ n m, (steps (3 * n + 3 * m + 4) self).1 = iteration n m).
Proof.
  intros claim.
  destruct (claim (list string) json_monitor (MonitorThread_init [EmptyString; "{}"])
              eq_refl eq_refl) as (n & m & eq).
  replace (3 * n + 3 * m + 4)%nat with (4 + (3 * n + 3 * m))%nat in eq by lia.
  rewrite steps_add in eq. unfold iteration in eq.
  destruct n as [|n]; [destruct m as [|m] |]; simpl in eq; discriminate eq.
Qed.

(** C6, amended: a pass of the outer loop that starts with the flag up
    and in which nothing raises goes round the first inner loop as long
    as the queue test answers that there is a message ([parse_json],
    then [reset_vals], once a round), then round the second as long as
    there is a command ([parse_cmd], then [reset_vals]), then sleeps
    500 ms and is back at the test of the flag.  When a call raises, the
    pass ends there: the handler emits the exception and the thread is
    back at the test, the rest of the queues not handled and without
    sleep.  The window's timer is started with 2000 ms and calls
    [update_status], so it fires at every multiple of two seconds. *)
Theorem pass_drains_queues_then_sleeps {World : Type} `{!Monitor World}
    (n m : nat) (self : MonitorThread World)
    (fs : FileSystem) (b : Backend) (gui : JS8CallMonitorGUI) :
  at_point self = AtWhile → running self = true →
  JS8CallMonitorGUI_init fs b = Ok gui →
  let w1 := Nat.iter n handle_msg (world self) in
  let timer := {| interval := 2000; single_shot := false; timeout := UpdateStatus false |} in
  (msg_rounds n (world self) → cmd_rounds m w1 →
   steps (3 * n + 3 * m + 4) self
   = (iteration n m, goto AtWhile (Nat.iter m handle_cmd w1) self))
  ∧ (∀ (thread : MonitorThread World) (e : exn),
       raised thread = Some e →
       ∃ f w, steps 2 thread = ([Call f; Emit (str e)], goto AtWhile w thread))
  ∧ last (timers gui) = Some timer
  ∧ (∀ window, on_timeout timer window = update_status false window)
  ∧ ∀ elapsed, fires timer elapsed = true ↔ ∃ k, 0 < k ∧ elapsed = 2000 * k.
Proof.
  intros here up init w1 timer. split; [by apply quiet_pass |].
  split; [apply steps_raised |].
  split; [| split; [done | intros elapsed; by apply fires_periodic]].
  unfold JS8CallMonitorGUI_init in init.
  apply ConfigFacts.bind_ok in init as (loaded & _ & init). simplify_eq.
  simpl. apply last_snoc.
Qed.

Lemma pass_drains_queues_then_sleeps_sample :
  steps 13 (MonitorThread_init {| msgQueue := ["a"; "b"]; cmdQueue := ["c"] |})
  = ([TestRunning true;
      Call MsgEmpty; Call ParseJson; Call ResetVals;
      Call MsgEmpty; Call ParseJson; Call ResetVals;
      Call MsgEmpty;
      Call CmdEmpty; Call ParseCmd; Call ResetVals;
      Call CmdEmpty; Sleep 500],
     MonitorThread_init {| msgQueue := []; cmdQueue := [] |})
  ∧ fires {| interval := 2000; single_shot := false; timeout := UpdateStatus false |} 6000
    = true.
Proof.
  destruct (JS8CallMonitorGUI_init (file full true) backend) as [gui|] eqn:init;
    [| by vm_compute in init].
  destruct (pass_drains_queues_then_sleeps 2 1
              (MonitorThread_init {| msgQueue := ["a"; "b"]; cmdQueue := ["c"] |})
              (file full true) backend gui eq_refl eq_refl init)
    as (trace & _ & _ & _ & timer).
  split; [apply trace; by repeat split |]. apply timer. exists 3. done.
Defined.

(** C7: the flag is the thread's only way out and is read at the test of
    the outer loop only.  Once [stop()] has put it down no schedule
    begins another pass; a step is a test of the flag exactly when the
    thread stands at the outer [while], and a pass has one such step,
    its first; away from it a step is the same with the flag down, so
    the steps of a pass under way, the draining of the queues among
    them, do what they would have done; and the thread returns only
    from a test that finds the flag down. *)
Theorem stop_checked_once_per_pass {World : Type} `{!Monitor World} :
  (∀ acts (self : MonitorThread World), TestRunning true ∉ (schedule acts (stop self)).1)
  ∧ (∀ (self : MonitorThread World) ev self',
       step self = Some (ev, self') → is_test ev = true ↔ at_point self = AtWhile)
  ∧ (∀ n m, ∃ body, iteration n m = TestRunning true :: body
                    ∧ Forall (λ ev, is_test ev = false) body)
  ∧ (∀ self : MonitorThread World,
       at_point self ≠ AtWhile → step (stop self) = prod_map id stop <$> step self)
  ∧ (∀ n (self : MonitorThread World),
       Forall (λ ev, is_test ev = false) (steps n self).1 →
       steps n (stop self) = ((steps n self).1, stop (steps n self).2))
  ∧ (∀ (self : MonitorThread World) ev self',
       step self = Some (ev, self') → at_point self' = Returned →
       at_point self = AtWhile ∧ running self = false ∧ ev = TestRunning false).
Proof.
  split; [intros acts self; by apply schedule_stopped |].
  split; [apply step_test_running |].
  split; [apply iteration_tests |].
  split; [apply step_stop |].
  split; [apply steps_stop | apply step_returned].
Qed.

(** A stop while the first of two messages is handled: the pass goes on
    to its end, and the next test of the flag returns. *)
Lemma stop_checked_once_per_pass_sample :
  schedule ([Step; Step; Step; Stop] ++ replicate 11 Step)
    (MonitorThread_init {| msgQueue := ["a"; "b"]; cmdQueue := ["c"] |})
  = ([TestRunning true;
      Call MsgEmpty; Call ParseJson; Call ResetVals;
      Call MsgEmpty; Call ParseJson; Call ResetVals;
      Call MsgEmpty;
      Call CmdEmpty; Call ParseCmd; Call ResetVals;
      Call CmdEmpty; Sleep 500; TestRunning false],
     {| running := false; at_point := Returned;
        world := {| msgQueue := []; cmdQueue := [] |} |})
  ∧ TestRunning true ∉
      (schedule (replicate 20 Step)
         (stop (MonitorThread_init {| msgQueue := ["a"; "b"]; cmdQueue := ["c"] |}))).1.
Proof.
  split; [reflexivity |].
  apply (proj1 (stop_checked_once_per_pass (World := queues))).
Defined.

(** *** Missing sections and the forced update *)





(** C10: when the monitor has started, [start_monitor] has set a
    single-shot timer of 1000 ms on [update_status(force=True)]; when it
    fires, every indicator of the window, whatever its protocol and its
    state, ends with the green style and the flag [True]. *)
Theorem forced_update_after_start fs b self :
  monitor_thread self = false →
  monitor_thread (start_monitor fs b self) = true →
  let timer := {| interval := 1000; single_shot := true; timeout := UpdateStatus true |} in
  timer ∈ timers (start_monitor fs b self)
  ∧ (∀ elapsed, fires timer elapsed = true ↔ elapsed = 1000)
  ∧ ∀ window,
      on_timeout timer window = update_status true window
      ∧ status_indicators (on_timeout timer window)
        = (λ i, {| status := set_connected true (status i); led := Green |})
          <$> status_indicators window
      ∧ Forall (λ i, led i = Green ∧ connected (status i) = true)
          (status_indicators (on_timeout timer window)).
Proof.
  intros fresh started timer. split; [| split].
  - rewrite start_monitor_timers by done. set_solver.
  - intros elapsed. apply fires_single_shot.
  - intros window. split; [done |].
    change (on_timeout timer window) with (update_status true window).
    rewrite update_status_forced. split; [done |].
    apply Forall_fmap, Forall_true. done.
Qed.

Lemma forced_update_after_start_full :
  led <$> status_indicators
            (update_status true (start_monitor (file full true) backend
                                   (loaded (file full true))))
  = [Green; Green; Green]
  ∧ (λ i, connected (status i))
    <$> status_indicators
          (update_status true (start_monitor (file full true) backend
                                 (loaded (file full true))))
    = [true; true; true].
Proof.
  destruct (forced_update_after_start (file full true) backend (loaded (file full true)))
    as (_ & _ & forced); [by vm_compute | by vm_compute |].
  destruct (forced (start_monitor (file full true) backend (loaded (file full true))))
    as (_ & eq & _).
  change (on_timeout _ ?w) with (update_status true w) in eq.
  rewrite eq. split; by vm_compute.
Defined.

End GuiFacts.

(** ** The settings dialog *)

Module SettingsFacts.

Import configparser Settings Samples.

(** *** The table of fields *)

Lemma bindings_proper : Forall proper bindings.
Proof. apply (bool_decide_unpack _). by vm_compute. Qed.

Lemma bindings_attrs : NoDup (attr <$> bindings).
Proof. apply (bool_decide_unpack _). by vm_compute. Qed.

Lemma bindings_targets : NoDup (target <$> bindings).
Proof. apply (bool_decide_unpack _). by vm_compute. Qed.


(** *** The construction of the form *)

Lemma create_tabs_lookup config bs form0 form :
  NoDup (attr <$> bs) → create_tabs config bs form0 = Ok form →
  (∀ b, b ∈ bs → ∃ c, create config b = Ok c ∧ form !! attr b = Some c)
  ∧ (∀ a, a ∉ attr <$> bs → form !! a = form0 !! a).
Proof.
  revert form0. induction bs as [|b bs IH]; intros form0 distinct; simpl.
  - intros eq. simplify_eq. split; [intros b []%elem_of_nil | done].
  - intros (c & made & rest)%ConfigFacts.bind_ok.
    apply NoDup_cons in distinct as [fresh distinct].
    destruct (IH _ distinct rest) as [inside outside]. split.
    + intros b' [-> | elem]%elem_of_cons; [| by apply inside].
      exists c. split; [done |]. rewrite outside by done. apply lookup_insert_eq.
    + intros a [ne absent]%not_elem_of_cons.
      rewrite outside by done. by rewrite lookup_insert_ne.
Qed.

(** *** The writes of [save_config] *)

Lemma update_config_step b bs form config config' err :
  update_config (b :: bs) form config = (config', err) →
  (∃ val config1,
     shown form b = Ok val ∧ set config (section b) (key b) val = Ok config1
     ∧ update_config bs form config1 = (config', err))
  ∨ (config' = config ∧ is_Some err).
Proof.
  simpl. destruct (shown form b) as [val|e] eqn:eq; simpl.
  - destruct (set config (section b) (key b) val) as [config1|e] eqn:eq'.
    + left. eauto.
    + intros ?. simplify_eq. right. eauto.
  - intros ?. simplify_eq. right. eauto.
Qed.

(** Options no field is bound to, the sections and the options of
    [DEFAULT] are as before, wherever the writes stop. *)
Lemma update_config_frame bs form config config' err section option :
  Forall proper bs → update_config bs form config = (config', err) →
  (section, option) ∉ target <$> bs →
  stored config' section option = stored config section option.
Proof.
  revert config. induction bs as [|b bs IH]; intros config ok; simpl.
  - intros ? _. by simplify_eq.
  - intros eq [ne absent]%not_elem_of_cons.
    apply Forall_cons in ok as [[ne1 ne2] ok].
    apply update_config_step in eq as [(val & config1 & _ & written & rest) | [-> _]];
      [| done].
    rewrite (IH _ ok rest absent).
    rewrite (ConfigFacts.set_stored _ _ _ _ _ _ _ ne1 ne2 written).
    rewrite decide_False; [done |]. intros [-> ->]. by apply ne.
Qed.



(** When all the writes succeed, each field's option holds the string
    the field shows. *)
Lemma update_config_written bs form config config' :
  Forall proper bs → NoDup (target <$> bs) →
  update_config bs form config = (config', None) →
  ∀ b, b ∈ bs →
    ∃ val, shown form b = Ok val
           ∧ stored config' (section b) (optionxform (key b)) = Some val.
Proof.
  revert config. induction bs as [|b bs IH]; intros config ok distinct; simpl.
  - intros _ b []%elem_of_nil.
  - intros eq b' elem.
    apply Forall_cons in ok as [[ne1 ne2] ok].
    apply NoDup_cons in distinct as [fresh distinct].
    apply update_config_step in eq as [(val & config1 & see & written & rest) | [_ []]];
      [| done].
    apply elem_of_cons in elem as [-> | elem]; [| by apply (IH _ ok distinct rest)].
    exists val. split; [done |].
    rewrite (update_config_frame _ _ _ _ _ _ _ ok rest fresh).
    rewrite (ConfigFacts.set_stored _ _ _ _ _ _ _ ne1 ne2 written).
    by rewrite decide_True.
Qed.

(** *** [save_config] as a whole *)

Lemma save_config_accepts self fs :
  accepted (save_config self fs) = true
  ↔ (update_config bindings (form self) (config self)).2 = None
    ∧ open_error fs = None ∧ write_error fs = None.
Proof.
  unfold save_config, open_write.
  destruct (update_config _ _ _) as [config' [e|]]; simpl; [by intuition |].
  destruct (open_error fs); simpl; [by intuition |].
  destruct (write_error fs); simpl; by intuition.
Qed.

Lemma save_config_accepted self fs :
  accepted (save_config self fs) = true →
  ∃ config',
    update_config bindings (form self) (config self) = (config', None)
    ∧ dialog (save_config self fs) = {| config := config'; form := form self |}
    ∧ files (save_config self fs) = Rewritten config'.
Proof.
  unfold save_config, open_write.
  destruct (update_config _ _ _) as [config' [e|]]; [done |].
  destruct (open_error fs); [done |]. destruct (write_error fs); [done |]. eauto.
Qed.



(** A save stopped by a [set] has not come to the file. *)
Lemma save_config_set_fails self fs :
  (update_config bindings (form self) (config self)).2 ≠ None →
  files (save_config self fs) = fs.
Proof.
  unfold save_config.
  by destruct (update_config _ _ _) as [config' [e|]].
Qed.

Lemma save_config_raised self fs e :
  save_raises self fs = Some e →
  boxes (save_config self fs)
  = [Critical "Error Saving Settings"
       ("Failed to save configuration:" +:+ newline +:+ str e)]
  ∧ accepted (save_config self fs) = false.
Proof.
  unfold save_raises, save_config.
  destruct (update_config _ _ _) as [config' [e'|]].
  - intros ?. by simplify_eq.
  - destruct (open_write fs config') as [there [e'|]]; simpl; intros ?; by simplify_eq.
Qed.

Lemma save_config_returned self fs :
  save_raises self fs = None ↔ accepted (save_config self fs) = true.
Proof.
  unfold save_raises, save_config.
  destruct (update_config _ _ _) as [config' [e'|]]; [done |].
  by destruct (open_write fs config') as [there [e'|]]; simpl.
Qed.

(** A spin box bounds the value read; a check box refuses a value that
    is no truth value, and then the dialog does not open. *)
Example create_bounded :
  create {| defaults := ∅; sections := {[ "TCP" := {[ "port" := "70000" ]} ]} |}
    tcp_port_field
  = Ok (Value 65535).
Proof. reflexivity. Qed.

Example init_refused :
  SettingsDialog_init (file partial true)
  = Raise (ValueError "invalid truth value 'maybe'").
Proof. by vm_compute. Qed.

Lemma opened_full : SettingsDialog_init (file full true) = Ok (opened (file full true)).
Proof. by vm_compute. Qed.

Lemma opened_short : SettingsDialog_init (file short true) = Ok (opened (file short true)).
Proof. by vm_compute. Qed.

(** C2, as stated, fails: the file holds [enabled = yes] in its section
    TCP; the dialog opened on it and saved at once writes
    [enabled = true]. *)
Lemma save_after_load_not_verbatim :
  ¬ (∀ fs self b v,
       SettingsDialog_init fs = Ok self → b ∈ bindings →
       stored (read fs) (section b) (optionxform (key b)) = Some v →
       accepted (save_config self fs) = true →
       stored (config (dialog (save_config self fs))) (section b) (optionxform (key b))
       = Some v).
Proof.
  intros claim.
  pose proof (claim (file full true) (opened (file full true)) tcp_enabled_field "yes"
                opened_full) as verbatim.
  assert (tcp_enabled_field ∈ bindings) as elem
    by (apply (bool_decide_unpack _); by vm_compute).
  specialize (verbatim elem ltac:(by vm_compute) ltac:(by vm_compute)).
  vm_compute in verbatim. discriminate verbatim.
Qed.

Lemma stored_visible config section option v :
  section ≠ default_section →
  stored config section (optionxform option) = Some v →
  visible config section option = Some v.
Proof.
  unfold stored, visible, unify_values. intros ne.
  rewrite decide_False by done.
  destruct (sections config !! section) as [d|]; [| done]. simpl.
  intros own. by apply lookup_union_Some_l.
Qed.

(** C2, amended: the dialog opened on a file and saved at once writes
    under each bound key the string its field shows for the value read:
    the value itself for a line edit, [true] or [false] after
    [strtobool] for a check box, the decimal of the integer bounded by
    the range for a spin box.  The value read is the stored one when
    that holds no percent sign.  So the round trip is verbatim for line
    edits and, for the other fields, only on values already in the form
    the field writes. *)
Theorem save_after_load_writes_shown fs self b :
  SettingsDialog_init fs = Ok self → b ∈ bindings →
  accepted (save_config self fs) = true →
  let saved :=
    stored (config (dialog (save_config self fs))) (section b) (optionxform (key b)) in
  ∃ val,
    get (read fs) (section b) (key b) (fallback b) = Ok val
    ∧ (∀ v, stored (read fs) (section b) (optionxform (key b)) = Some v →
            contains "%" v = false → val = v)
    ∧ match kind b with
      | QLineEdit => saved = Some val
      | QCheckBox =>
          ∃ n, strtobool val = Ok n ∧ saved = Some (str_bool_lower (bool_of_int n))
      | QSpinBox minimum maximum =>
          ∃ n, int val = Ok n
               ∧ saved = Some (str_int (Z.max minimum (Z.min maximum n)))
      end.
Proof.
  intros init elem saved_ok saved. subst saved.
  unfold SettingsDialog_init in init. cbv zeta in init.
  apply ConfigFacts.bind_ok in init as (form & made & init). simplify_eq.
  destruct (create_tabs_lookup _ _ _ _ bindings_attrs made) as [inside _].
  destruct (inside b elem) as (c & created & held).
  destruct (save_config_accepted _ _ saved_ok) as (config' & writes & -> & _).
  simpl in writes |- *.
  destruct (update_config_written _ _ _ _ bindings_proper bindings_targets writes b elem)
    as (val' & see & there).
  unfold create in created.
  apply ConfigFacts.bind_ok in created as (val & got & filled).
  exists val. split; [done |]. split.
  - intros v own plain.
    pose proof (proj1 (Forall_forall _ _) bindings_proper b elem) as [_ ne].
    rewrite (ConfigFacts.get_plain _ _ _ _ v) in got; [by simplify_eq | | done].
    by apply stored_visible.
  - unfold shown in see. rewrite held in see.
    destruct (kind b) as [| |minimum maximum].
    + by simplify_eq.
    + apply ConfigFacts.bind_ok in filled as (n & truth & filled). simplify_eq. eauto.
    + apply ConfigFacts.bind_ok in filled as (n & number & filled).
      unfold setValue in filled. destruct (_ || _); simplify_eq. eauto.
Qed.

Lemma save_after_load_writes_shown_full :
  stored (config (dialog (save_config (opened (file full true)) (file full true))))
    "TCP" "port" = Some "2442"
  ∧ stored (config (dialog (save_config (opened (file full true)) (file full true))))
      "STATION" "operator" = Some "N0CALL".
Proof.
  split.
  - destruct (save_after_load_writes_shown (file full true) (opened (file full true))
                tcp_port_field opened_full) as (val & got & _ & n & number & saved);
      [apply (bool_decide_unpack _); by vm_compute | by vm_compute |].
    vm_compute in got. injection got as <-.
    vm_compute in number. injection number as <-.
    refine (eq_trans saved _). by vm_compute.
  - destruct (save_after_load_writes_shown (file full true) (opened (file full true))
                operator_field opened_full) as (val & got & _ & saved);
      [apply (bool_decide_unpack _); by vm_compute | by vm_compute |].
    vm_compute in got. injection got as <-. exact saved.
Defined.




(** *** Defaults *)

Lemma get_absent config section option fallback :
  section ≠ EmptyString → section ≠ default_section →
  has_option config section option = false →
  get config section option fallback = Ok fallback.
Proof.
  intros ne ne' absent. apply ConfigFacts.get_fallback.
  by apply ConfigFacts.has_option_visible.
Qed.

Lemma create_absent config b :
  proper b → has_option config (section b) (key b) = false →
  create config b = create new b.
Proof.
  intros [ne ne'] absent. unfold create.
  rewrite !get_absent; try done.
  unfold has_option. by rewrite decide_False by (intros [|]; done).
Qed.

Lemma bindings_show_fallback : Forall (λ b, shows_fallback b = true) bindings.
Proof. apply (bool_decide_unpack _). by vm_compute. Qed.



(** *** Restore Defaults *)

(** C9: [restore_defaults] leaves the configuration object, the fields
    and the file as they are, whatever the reply, and does not accept
    the dialog; it shows the question and, on Yes, one information
    box. *)
Theorem restore_defaults_changes_nothing r self fs :
  dialog (restore_defaults r self fs) = self
  ∧ files (restore_defaults r self fs) = fs
  ∧ accepted (restore_defaults r self fs) = false
  ∧ length (boxes (restore_defaults r self fs))
    = match r with Yes => 2%nat | No => 1%nat end
  ∧ Forall (λ box, match box with Critical _ _ => False | _ => True end)
      (boxes (restore_defaults r self fs)).
Proof.
  repeat split; try done; destruct r; simpl; try done.
  all: repeat (apply Forall_cons; split; [done |]); apply Forall_nil_2.
Qed.

End SettingsFacts.

(** ** Errors *)

(** C5: an exception raised by a statement of the body of the thread's
    loop, a queue test or a method of the monitor, takes the thread to
    the handler, which emits its string; the slot connected to the
    signal prints it after [Error: ]; the thread is then back at the
    test of the flag, the flag untouched, so that with the flag up the
    next pass begins.  An exception raised in [save_config], by a
    [set], by opening the file or by the write, gives one critical box
    with its string and the dialog is not accepted; the dialog is
    accepted exactly when none is raised. *)
Theorem exceptions_are_reported {World : Type} `{!Gui.Monitor World} :
  (∀ (thread : Gui.MonitorThread World) (e : exn) (window : Gui.JS8CallMonitorGUI),
     Gui.raised thread = Some e →
     ∃ f w,
       Gui.steps 2 thread
       = ([Gui.Call f; Gui.Emit (str e)], Gui.goto Gui.AtWhile w thread)
       ∧ Gui.console (Gui.deliver (Gui.Emit (str e)) window)
         = (Gui.console window ++ ["Error: " +:+ str e])%list
       ∧ (Gui.running thread = true →
          Gui.step (Gui.goto Gui.AtWhile w thread)
          = Some (Gui.TestRunning true, Gui.goto Gui.AtMsgEmpty w thread)))
  ∧ (∀ (self : Settings.SettingsDialog) (fs : FileSystem) (e : exn),
       Settings.save_raises self fs = Some e →
       Settings.boxes (Settings.save_config self fs)
       = [Settings.Critical "Error Saving Settings"
            ("Failed to save configuration:" +:+ Settings.newline +:+ str e)]
       ∧ Settings.accepted (Settings.save_config self fs) = false)
  ∧ (∀ (self : Settings.SettingsDialog) (fs : FileSystem),
       Settings.save_raises self fs = None
       ↔ Settings.accepted (Settings.save_config self fs) = true).
Proof.
  split.
  - intros thread e window raised.
    destruct (GuiFacts.steps_raised thread e raised) as (f & w & eq).
    exists f, w. split; [done |]. split; [done |].
    intros up. unfold Gui.step, Gui.goto. simpl. by rewrite up.
  - split; [apply SettingsFacts.save_config_raised |].
    apply SettingsFacts.save_config_returned.
Qed.

(** An empty message makes [parse_json] raise; a file with two sections
    makes the first [set] of [save_config] raise; on a full disk the
    write raises. *)
Lemma exceptions_are_reported_sample :
  (Gui.steps 3 Samples.unparsed).1
  = [Gui.Call Gui.ParseJson;
     Gui.Emit "Expecting value: line 1 column 1 (char 0)";
     Gui.TestRunning true]
  ∧ Settings.boxes
      (Settings.save_config (Samples.opened (Samples.file Samples.short true))
         (Samples.file Samples.short true))
    = [Settings.Critical "Error Saving Settings"
         ("Failed to save configuration:" +:+ Settings.newline
          +:+ "No section: 'STATION'")]
  ∧ Settings.boxes
      (Settings.save_config (Samples.opened (Samples.file Samples.full true))
         (Samples.on_full_disk (Samples.file Samples.full true)))
    = [Settings.Critical "Error Saving Settings"
         ("Failed to save configuration:" +:+ Settings.newline
          +:+ "[Errno 28] No space left on device")].
Proof.
  destruct (exceptions_are_reported (World := list string)) as (thread & save & _).
  split; [| split].
  - destruct (thread Samples.unparsed (Exception "Expecting value: line 1 column 1 (char 0)")
                Gui.init_ui eq_refl) as (f & w & two & _ & next).
    specialize (next eq_refl).
    change 3%nat with (2 + 1)%nat. rewrite GuiFacts.steps_add, two.
    cbn [fst snd Gui.steps]. rewrite next. cbn [fst app].
    vm_compute in two. by simplify_eq.
  - by destruct (save (Samples.opened (Samples.file Samples.short true))
                   (Samples.file Samples.short true) (NoSectionError "STATION"))
      as (shown & _); [by vm_compute |].
  - by destruct (save (Samples.opened (Samples.file Samples.full true))
                   (Samples.on_full_disk (Samples.file Samples.full true))
                   (OSError "[Errno 28] No space left on device"))
      as (shown & _); [by vm_compute |].
Defined.

(** ** The window at work *)

Module WindowFacts.

Import configparser Gui Samples Window.

(** *** Status updates *)

Lemma update_status_indicators force self :
  status_indicators (update_status force self) = updated force <$> status_indicators self.
Proof.
  unfold update_status. simpl. apply list_fmap_ext. intros _ [[n p h q c] l] _.
  unfold updated, checked, check_status, check_connection, update_led, set_connected.
  simpl. destruct (decide (p = "UDP")) as [-> | not_udp].
  { rewrite bool_decide_true by (by left). by destruct force. }
  destruct (decide (p = "TCP")) as [-> | not_tcp].
  { rewrite bool_decide_true by (by right). by destruct force. }
  rewrite bool_decide_false by (intros [|]; done). by destruct force, c.
Qed.

Lemma updated_twice force force' i :
  updated force (updated force' i) = updated (force || force') i.
Proof.
  destruct i as [[n p h q c] l]. unfold updated, checked, set_connected. simpl.
  destruct force, force', (bool_decide _), c; done.
Qed.

Lemma update_status_twice force force' self :
  update_status force (update_status force' self) = update_status (force || force') self.
Proof.
  pose proof (update_status_indicators force (update_status force' self)) as eq.
  rewrite (update_status_indicators force' self), <- list_fmap_compose in eq.
  pose proof (update_status_indicators (force || force') self) as eq'.
  destruct self as [m t c u inds src cl tm con].
  unfold update_status in *. simpl in *. f_equal.
  rewrite eq, eq'. apply list_fmap_ext. intros _ i _. apply updated_twice.
Qed.

Lemma updates_cons force forces self :
  updates (force :: forces) self = update_status (force || existsb id forces) self.
Proof.
  unfold updates. revert force self.
  induction forces as [|force' forces IH]; intros force self.
  - simpl. by rewrite orb_false_r.
  - cbn [foldl existsb id] in *. rewrite (IH force' (update_status force self)).
    rewrite update_status_twice. f_equal.
    by destruct force, force', (existsb id forces).
Qed.

(** X1: however often the timer calls [update_status], the window is as
    after one call, forced if one of the calls was: two calls are one,
    the calls after the first change nothing more, and a forced call is
    never undone. *)
Theorem updates_collapse force force' forces self :
  update_status force (update_status force' self) = update_status (force || force') self
  ∧ updates (force :: forces) self = update_status (force || existsb id forces) self
  ∧ updates (force :: forces) (update_status true self) = update_status true self.
Proof.
  split; [apply update_status_twice |]. split; [apply updates_cons |].
  rewrite updates_cons, update_status_twice. f_equal. apply orb_true_r.
Qed.

(** X2: through any calls of [update_status] the window keeps its
    indicators, each with its name, protocol, host and port; after at
    least one call every LED shows the flag of its indicator; a flag that
    is up stays up, the flags of the UDP and TCP indicators are up, and
    without a forced call the flag of any other indicator is as it
    was. *)
Theorem updates_keep_indicators forces self :
  identity <$> status_indicators (updates forces self)
  = identity <$> status_indicators self
  ∧ (forces ≠ [] → Forall consistent (status_indicators (updates forces self)))
  ∧ (∀ k i, status_indicators self !! k = Some i →
       ∃ i', status_indicators (updates forces self) !! k = Some i'
             ∧ (connected (status i) = true → connected (status i') = true)
             ∧ (forces ≠ [] → checked i = true → connected (status i') = true)
             ∧ (existsb id forces = false → checked i = false →
                connected (status i') = connected (status i))).
Proof.
  destruct forces as [|force forces].
  { split; [done |]. split; [done |]. intros k i eq. exists i. by repeat split. }
  rewrite updates_cons, update_status_indicators.
  set (forced := force || existsb id forces).
  split; [| split].
  - rewrite <- list_fmap_compose. by apply list_fmap_ext.
  - intros _. apply Forall_fmap, Forall_true. intros [[n p h q c] l].
    unfold consistent, updated. simpl. done.
  - intros k i eq. exists (updated forced i).
    rewrite list_lookup_fmap, eq. split; [done |].
    unfold updated. simpl. split; [| split].
    + intros ->. by rewrite orb_true_r.
    + intros _ ->. by rewrite orb_true_r.
    + intros none unchecked. unfold forced. simpl in none.
      apply orb_false_elim in none as [-> ->]. by rewrite unchecked.
Qed.

(** *** The indicators [load_config] makes *)

Lemma adds_none labels self : adds labels self self.
Proof.
  exists []. rewrite !app_nil_r. repeat split; try done. apply sublist_nil_l.
Qed.

Lemma adds_client n p h q self :
  adds [(n, p)] self (add_client (StatusIndicator_init n p h q) self).
Proof.
  exists [StatusIndicator_init n p h q]. repeat split; try done.
  by apply Forall_singleton.
Qed.

Lemma adds_then l1 l2 a b c : adds l1 a b → adds l2 b c → adds (l1 ++ l2) a c.
Proof.
  intros (m1 & ind1 & lay1 & src1 & back1 & fresh1 & sub1)
         (m2 & ind2 & lay2 & src2 & back2 & fresh2 & sub2).
  exists (m1 ++ m2)%list. split; [| split; [| split; [| split; [| split]]]].
  - by rewrite ind2, ind1, app_assoc.
  - rewrite lay2, lay1, ind1, !length_app, <- app_assoc. f_equal.
    by rewrite seq_app.
  - congruence.
  - congruence.
  - by apply Forall_app.
  - rewrite fmap_app. by apply sublist_app.
Qed.

Ltac stage_adds :=
  unfold load_n1mm, load_gridtracker, load_geoserver, load_yaac, load_adif;
  repeat (let v := fresh "v" in let bound := fresh "bound" in
          intros (v & _ & bound)%ConfigFacts.bind_ok; revert bound);
  repeat match goal with
         | |- (if ?b then _ else _) = Ok _ → _ => destruct b
         end;
  repeat (let v := fresh "v" in let bound := fresh "bound" in
          intros (v & _ & bound)%ConfigFacts.bind_ok; revert bound);
  intros eq; simplify_eq; first [apply adds_client | apply adds_none].

Lemma load_n1mm_adds config self self' :
  load_n1mm config self = Ok self' → adds [("N1MM+", "UDP")] self self'.
Proof. stage_adds. Qed.

Lemma load_gridtracker_adds config self self' :
  load_gridtracker config self = Ok self' → adds [("GridTracker", "UDP")] self self'.
Proof. stage_adds. Qed.

Lemma load_geoserver_adds config self self' :
  load_geoserver config self = Ok self' → adds [("GeoServer", "UDP")] self self'.
Proof. stage_adds. Qed.

Lemma load_yaac_adds config self self' :
  load_yaac config self = Ok self' → adds [("YAAC", "FILE")] self self'.
Proof. stage_adds. Qed.

Lemma load_adif_adds config self self' :
  load_adif config self = Ok self' → adds [("ADIF", "FILE")] self self'.
Proof. stage_adds. Qed.

Lemma load_source_label config indicator :
  load_source config = Ok indicator →
  fresh indicator
  ∧ label indicator
    = if tcp_enabled config then ("JS8Call (TCP)", "TCP") else ("JS8Call (UDP)", "UDP").
Proof.
  unfold load_source. destruct (tcp_enabled config).
  all: intros (host & _ & (port & _ & eq)%ConfigFacts.bind_ok)%ConfigFacts.bind_ok.
  all: by simplify_eq.
Qed.

Lemma load_config_adds fs self gui :
  load_config fs self = Ok gui →
  ∃ source,
    fresh source
    ∧ label source
      = (if tcp_enabled (read fs) then ("JS8Call (TCP)", "TCP")
         else ("JS8Call (UDP)", "UDP"))
    ∧ adds client_labels (add_source source self) gui.
Proof.
  unfold load_config. cbv zeta.
  intros (source & made & rest)%ConfigFacts.bind_ok.
  apply ConfigFacts.bind_ok in rest as (self1 & n1mm & rest).
  apply ConfigFacts.bind_ok in rest as (self2 & gridtracker & rest).
  apply ConfigFacts.bind_ok in rest as (self3 & geoserver & rest).
  apply ConfigFacts.bind_ok in rest as (self4 & yaac & adif).
  destruct (load_source_label _ _ made) as [new lbl].
  exists source. split; [done |]. split; [done |].
  apply (adds_then [_] [_; _; _; _] _ _ _ (load_n1mm_adds _ _ _ n1mm)).
  apply (adds_then [_] [_; _; _] _ _ _ (load_gridtracker_adds _ _ _ gridtracker)).
  apply (adds_then [_] [_; _] _ _ _ (load_geoserver_adds _ _ _ geoserver)).
  apply (adds_then [_] [_] _ _ _ (load_yaac_adds _ _ _ yaac)).
  exact (load_adif_adds _ _ _ adif).
Qed.

(** The window [load_config] hands on: the source first, every
    indicator as made, the rest of the window untouched. *)
Lemma loaded_window fs window :
  load_config fs init_ui = Ok window →
  ∃ source clients,
    status_indicators window = source :: clients
    ∧ label source
      = (if tcp_enabled (read fs) then ("JS8Call (TCP)", "TCP")
         else ("JS8Call (UDP)", "UDP"))
    ∧ Forall fresh (source :: clients)
    ∧ backstage window = backstage init_ui.
Proof.
  intros (source & new & lbl & clients & inds & _ & _ & back & news & _)%load_config_adds.
  exists source, clients. simpl in *. repeat split; try done. by apply Forall_cons.
Qed.

(** X3: when [load_config] succeeds on the new window, the window has
    the source indicator first, labelled by the protocol the TCP test
    chose, and after it at most five client indicators, a selection in
    this order of N1MM+, GridTracker, GeoServer (UDP), YAAC and ADIF
    (FILE); the source box holds the first, the clients' box the others
    in order; every LED is red and every flag down; no timer is set and
    nothing is printed. *)
Theorem load_config_indicators fs gui :
  load_config fs init_ui = Ok gui →
  ∃ source clients,
    status_indicators gui = source :: clients
    ∧ label source
      = (if tcp_enabled (read fs) then ("JS8Call (TCP)", "TCP")
         else ("JS8Call (UDP)", "UDP"))
    ∧ sublist (label <$> clients) client_labels
    ∧ (length clients ≤ 5)%nat
    ∧ source_layout gui = [0%nat]
    ∧ clients_layout gui = seq 1 (length clients)
    ∧ Forall fresh (source :: clients)
    ∧ backstage gui = backstage init_ui.
Proof.
  intros (source & new & lbl & clients & inds & lay & src & back & news & sub)%load_config_adds.
  exists source, clients. simpl in *.
  repeat split; try done.
  - apply sublist_length in sub. by rewrite length_fmap in sub.
  - by apply Forall_cons.
Qed.

Lemma load_config_indicators_full :
  label <$> status_indicators (loaded (file full true))
  = [("JS8Call (TCP)", "TCP"); ("N1MM+", "UDP"); ("YAAC", "FILE")]
  ∧ clients_layout (loaded (file full true)) = [1%nat; 2%nat].
Proof.
  destruct (load_config_indicators (file full true) (loaded (file full true)))
    as (source & clients & inds & _ & _ & _ & _ & lay & _); [by vm_compute |].
  rewrite lay. vm_compute in inds. split; [by vm_compute |].
  apply (f_equal length) in inds. simpl in inds. by simplify_eq.
Defined.

(** *** [__init__] and [start_monitor] *)

Lemma start_monitor_indicators fs b self :
  status_indicators (start_monitor fs b self) = status_indicators self
  ∧ source_layout (start_monitor fs b self) = source_layout self
  ∧ clients_layout (start_monitor fs b self) = clients_layout self.
Proof.
  unfold start_monitor, failed_to_start.
  destruct (JS8CallMonitor b); [| done].
  by destruct (tcp_enabled (read fs)), (new_tcp_client b), (new_udp_server b).
Qed.

(** The window a successful [load_config] hands to [start_monitor]. *)
Lemma init_loaded fs b gui :
  JS8CallMonitorGUI_init fs b = Ok gui →
  ∃ window,
    load_config fs init_ui = Ok window
    ∧ gui = add_timer periodic_update (start_monitor fs b window).
Proof.
  unfold JS8CallMonitorGUI_init.
  intros (window & load & eq)%ConfigFacts.bind_ok. exists window. by simplify_eq.
Qed.

(** X4: a window whose monitor thread was started shows the transport
    that was started: its first indicator is the source, labelled TCP
    exactly when the TCP client was made and UDP exactly when the UDP
    server was, and one of the two was made, not both; the monitor
    instance is there, nothing was printed and the timers are the
    single-shot forced update at 1000 ms and the periodic one at
    2000 ms. *)
Theorem started_transport_shown fs b gui :
  JS8CallMonitorGUI_init fs b = Ok gui →
  monitor_thread gui = true →
  ∃ source clients,
    status_indicators gui = source :: clients
    ∧ (protocol (status source) = "TCP" ↔ is_Some (gui_tcp_client gui))
    ∧ (protocol (status source) = "UDP" ↔ udp_server gui = true)
    ∧ (is_Some (gui_tcp_client gui) ↔ udp_server gui = false)
    ∧ monitor gui = true
    ∧ timers gui = [first_update; periodic_update]
    ∧ console gui = [].
Proof.
  intros (window & load & ->)%init_loaded started.
  destruct (loaded_window _ _ load) as (source & clients & inds & lbl & _ & back).
  exists source, clients.
  destruct (start_monitor_indicators fs b window) as (same & _ & _).
  split; [simpl; congruence |].
  unfold backstage in back. simpl in back.
  injection back as no_monitor no_thread no_client no_server no_timers no_console.
  unfold label in lbl.
  revert started. unfold start_monitor, failed_to_start. simpl.
  destruct (JS8CallMonitor b); simpl; [| congruence].
  destruct (tcp_enabled (read fs)); injection lbl as _ proto.
  - destruct (new_tcp_client b) as [client|]; simpl; [| done].
    intros _. rewrite proto, no_timers, no_console.
    repeat split; try done; by eexists.
  - destruct (new_udp_server b); simpl; [| done].
    intros _. rewrite proto, no_timers, no_console.
    repeat split; try done; by intros [? ?].
Qed.

Lemma started_transport_shown_full :
  (protocol ∘ status <$> head (status_indicators
                                 (add_timer periodic_update
                                    (start_monitor (file full true) backend
                                       (loaded (file full true))))))
  = Some "TCP"
  ∧ is_Some (gui_tcp_client (start_monitor (file full true) backend
                               (loaded (file full true)))).
Proof.
  destruct (started_transport_shown (file full true) backend
              (add_timer periodic_update
                 (start_monitor (file full true) backend (loaded (file full true)))))
    as (source & clients & inds & tcp & _); [by vm_compute | by vm_compute |].
  rewrite inds. simpl. split; [f_equal | apply tcp].
  all: vm_compute in inds; by simplify_eq.
Defined.

(** X5: the backend cannot keep the window from opening: it opens with
    any backend when it opens with one.  When the thread was not started,
    one of the constructors of [js8call_monitor] raised, in the order
    monitor, then client or server by the TCP test; the window has
    printed one line with the exception, has neither client nor server,
    and has the periodic timer only, no forced update.  Its unforced
    updates still turn green every UDP and TCP indicator, and leave red
    the others. *)
Theorem failed_start_still_opens fs b gui :
  JS8CallMonitorGUI_init fs b = Ok gui →
  monitor_thread gui = false →
  (∀ b', is_ok (JS8CallMonitorGUI_init fs b') = true)
  ∧ (∃ e,
       (JS8CallMonitor b = Raise e
        ∨ JS8CallMonitor b = Ok ()
          ∧ (if tcp_enabled (read fs)
             then new_tcp_client b = Raise e
             else new_udp_server b = Raise e))
       ∧ console gui = ["Error: Failed to start monitor: " +:+ str e])
  ∧ gui_tcp_client gui = None ∧ udp_server gui = false
  ∧ timers gui = [periodic_update]
  ∧ ∀ n,
      Forall (λ i, connected (status i) = checked i
                   ∧ led i = if checked i then Green else Red)
        (status_indicators (updates (replicate (S n) false) gui)).
Proof.
  intros (window & load & ->)%init_loaded stopped.
  destruct (loaded_window _ _ load) as (source & clients & inds & _ & new & back).
  destruct (start_monitor_indicators fs b window) as (same & _ & _).
  unfold backstage in back. simpl in back.
  injection back as no_monitor no_thread no_client no_server no_timers no_console.
  split; [| split; [| split; [| split; [| split]]]].
  - intros b'. unfold JS8CallMonitorGUI_init. by rewrite load.
  - revert stopped. unfold start_monitor, failed_to_start. simpl.
    destruct (JS8CallMonitor b) as [[]|e]; simpl.
    + destruct (tcp_enabled (read fs)).
      * destruct (new_tcp_client b) as [client|e]; simpl; [done |].
        intros _. exists e. rewrite no_console. split; [by right | done].
      * destruct (new_udp_server b) as [[]|e]; simpl; [done |].
        intros _. exists e. rewrite no_console. split; [by right | done].
    + intros _. exists e. rewrite no_console. split; [by left | done].
  - revert stopped. unfold start_monitor, failed_to_start. simpl.
    destruct (JS8CallMonitor b); simpl; [| done].
    by destruct (tcp_enabled (read fs)), (new_tcp_client b), (new_udp_server b).
  - revert stopped. unfold start_monitor, failed_to_start. simpl.
    destruct (JS8CallMonitor b); simpl; [| done].
    by destruct (tcp_enabled (read fs)), (new_tcp_client b), (new_udp_server b).
  - revert stopped. unfold start_monitor, failed_to_start. simpl.
    destruct (JS8CallMonitor b); simpl; [| by rewrite no_timers].
    destruct (tcp_enabled (read fs)), (new_tcp_client b), (new_udp_server b);
      simpl; try done; by rewrite no_timers.
  - intros n. cbn [replicate]. rewrite updates_cons, update_status_indicators.
    assert (existsb id (replicate n false) = false) as ->.
    { induction n; [done | by simpl]. }
    simpl. rewrite same, inds. apply Forall_fmap.
    apply (Forall_impl _ _ _ new). intros i [red down]. unfold updated, checked. simpl.
    rewrite down. by destruct (bool_decide _).
Qed.

Lemma failed_start_still_opens_refused :
  is_ok (JS8CallMonitorGUI_init (file full true) backend) = true
  ∧ timers (add_timer periodic_update
              (start_monitor (file full true) refused (loaded (file full true))))
    = [periodic_update].
Proof.
  destruct (failed_start_still_opens (file full true) refused
              (add_timer periodic_update
                 (start_monitor (file full true) refused (loaded (file full true)))))
    as (opens & _ & _ & _ & periodic & _); [by vm_compute | by vm_compute |].
  split; [apply opens | exact periodic].
Defined.

(** *** The end of the thread *)

Section thread_end.
Context {World : Type} `{!Monitor World}.

Implicit Types (t : MonitorThread World) (w : World).

Lemma returns_later n t : returns (steps n t).2 → returns t.
Proof.
  intros [k eq]. exists (n + k)%nat. by rewrite GuiFacts.steps_add.
Qed.

(** Under the queue discipline a thread whose flag is down comes to the
    end of [run], wherever it stands. *)
Lemma stopped_returns msg_count cmd_count t :
  discipline msg_count cmd_count → running t = false → returns t.
Proof.
  intros [mec cec pjq pcq rvq hmt hct].
  assert (∀ w, returns {| running := false; at_point := AtWhile; world := w |}) as at_while.
  { intros w. by exists 1%nat. }
  assert (∀ w, returns {| running := false; at_point := AtCmdEmpty; world := w |}) as at_cmd.
  { intros w. apply (returns_later (3 * cmd_count w + 2)).
    rewrite (GuiFacts.drain_cmds cmd_count cec pcq rvq hct (cmd_count w)) by done.
    apply at_while. }
  assert (∀ w, returns {| running := false; at_point := AtMsgEmpty; world := w |}) as at_msg.
  { intros w. apply (returns_later (3 * msg_count w + 1)).
    rewrite (GuiFacts.drain_msgs msg_count mec pjq rvq hmt (msg_count w)) by done.
    apply at_cmd. }
  assert (∀ w, returns {| running := false; at_point := AtMsgReset; world := w |}) as at_msg_reset.
  { intros w. apply (returns_later 1). simpl. unfold call. simpl.
    pose proof (rvq w) as quiet. destruct (reset_vals w) as [w' r].
    simpl in quiet. subst r. apply at_msg. }
  assert (∀ w, returns {| running := false; at_point := AtCmdReset; world := w |}) as at_cmd_reset.
  { intros w. apply (returns_later 1). simpl. unfold call. simpl.
    pose proof (rvq w) as quiet. destruct (reset_vals w) as [w' r].
    simpl in quiet. subst r. apply at_cmd. }
  destruct t as [r p w]. simpl. intros ->. destruct p.
  - apply at_while.
  - apply at_msg.
  - apply (returns_later 1). simpl. unfold call. simpl.
    pose proof (pjq w) as quiet. destruct (parse_json w) as [w' r].
    simpl in quiet. subst r. apply at_msg_reset.
  - apply at_msg_reset.
  - apply at_cmd.
  - apply (returns_later 1). simpl. unfold call. simpl.
    pose proof (pcq w) as quiet. destruct (parse_cmd w) as [w' r].
    simpl in quiet. subst r. apply at_cmd_reset.
  - apply at_cmd_reset.
  - apply (returns_later 1). apply at_while.
  - apply (returns_later 1). apply at_while.
  - by exists 0%nat.
Qed.

(** While the queue test answers that there is a message, a step of the
    first inner loop stays in it. *)
Lemma step_draining (busy : World → Prop) t :
  (∀ w, busy w → msgQueue_empty w = Ok false) →
  (∀ w, busy w → (parse_json w).2 = Ok () ∧ busy (parse_json w).1) →
  (∀ w, busy w → (reset_vals w).2 = Ok () ∧ busy (reset_vals w).1) →
  draining t → busy (world t) →
  ∃ ev t', step t = Some (ev, t') ∧ ev ∈ message_calls
           ∧ draining t' ∧ busy (world t').
Proof.
  intros nonempty parse reset. destruct t as [r p w]. unfold draining. simpl.
  rewrite !elem_of_cons, elem_of_nil. intros [-> | [-> | [-> | []]]] full.
  - unfold step, test. simpl. rewrite (nonempty w full).
    eexists _, _. split; [done |]. simpl.
    split; [apply (bool_decide_unpack _); by vm_compute |].
    split; [| done]. unfold draining. simpl.
    rewrite !elem_of_cons. tauto.
  - unfold step, call. simpl. destruct (parse w full) as [quiet full'].
    destruct (parse_json w) as [w' res]. simpl in *. subst res.
    eexists _, _. split; [done |]. simpl.
    split; [apply (bool_decide_unpack _); by vm_compute |].
    split; [| done]. unfold draining. simpl.
    rewrite !elem_of_cons. tauto.
  - unfold step, call. simpl. destruct (reset w full) as [quiet full'].
    destruct (reset_vals w) as [w' res]. simpl in *. subst res.
    eexists _, _. split; [done |]. simpl.
    split; [apply (bool_decide_unpack _); by vm_compute |].
    split; [| done]. unfold draining. simpl.
    rewrite !elem_of_cons. tauto.
Qed.

End thread_end.

(** X6: [closeEvent] brings the thread to its end: under the queue
    discipline the thread it has stopped returns from [run], wherever it
    stood, and before that begins no other pass.  The event is accepted
    and the exit is set 100 ms later whatever the two [close()] calls
    did; the window has printed its two lines. *)
Theorem close_event_ends_thread {World : Type} `{!Monitor World}
    (msg_count cmd_count : World → nat) (r : Resources)
    (self : JS8CallMonitorGUI) (t : MonitorThread World) :
  discipline msg_count cmd_count →
  monitor_thread self = true →
  returns (thread (closeEvent r self t))
  ∧ (∀ acts, TestRunning true ∉ (schedule acts (thread (closeEvent r self t))).1)
  ∧ event_accepted (closeEvent r self t) = true
  ∧ quit_after (closeEvent r self t) = Some 100
  ∧ console (window (closeEvent r self t))
    = (console self
       ++ ["Shutting down JS8Call Monitor..."; "Cleanup complete. Exiting..."])%list.
Proof.
  intros queues started. unfold closeEvent. simpl. rewrite started.
  split; [by apply (stopped_returns msg_count cmd_count) |].
  split; [intros acts; by apply GuiFacts.schedule_stopped |].
  by rewrite <- app_assoc.
Qed.

Lemma close_event_ends_thread_sample :
  returns (stop {| running := true; at_point := AtParseJson;
                   world := {| msgQueue := ["a"; "b"]; cmdQueue := ["c"] |} |}).
Proof.
  refine (proj1 (close_event_ends_thread
                   (λ w, length (msgQueue w)) (λ w, length (cmdQueue w))
                   {| sock := Some (Raise (OSError "closed")); log_handle := None |}
                   (start_monitor (file full true) backend (loaded (file full true)))
                   {| running := true; at_point := AtParseJson;
                      world := {| msgQueue := ["a"; "b"]; cmdQueue := ["c"] |} |}
                   GuiFacts.list_discipline _)).
  by vm_compute.
Defined.

(** X7: the stop flag and the commands wait for the messages: as long as
    the message queue answers that it is not empty and the handling of a
    message returns, a thread in the first inner loop stays in it
    whatever the schedule, calls to [stop()] included: it makes the three
    calls of that loop only, so it handles no command, never sleeps and
    never returns. *)
Theorem messages_starve_stop {World : Type} `{!Monitor World}
    (busy : World → Prop) (acts : list action) (t : MonitorThread World) :
  (∀ w, busy w → msgQueue_empty w = Ok false) →
  (∀ w, busy w → (parse_json w).2 = Ok () ∧ busy (parse_json w).1) →
  (∀ w, busy w → (reset_vals w).2 = Ok () ∧ busy (reset_vals w).1) →
  Forall (keeps busy) acts →
  draining t → busy (world t) →
  draining (schedule acts t).2
  ∧ at_point (schedule acts t).2 ≠ Returned
  ∧ Forall (λ ev, ev ∈ message_calls) (schedule acts t).1.
Proof.
  intros nonempty parse reset. revert t.
  assert (∀ t : MonitorThread World, draining t → at_point t ≠ Returned) as inside.
  { intros t. unfold draining. rewrite !elem_of_cons, elem_of_nil.
    intros [-> | [-> | [-> | []]]]; done. }
  induction acts as [|act acts IH]; intros t kept here full.
  - simpl. split; [done |]. split; [by apply inside | done].
  - apply Forall_cons in kept as [keep kept]. destruct act as [| |f]; simpl.
    + destruct (step_draining busy t nonempty parse reset here full)
        as (ev & t' & -> & call & here' & full').
      destruct (IH t' kept here' full') as (there & away & calls).
      destruct (schedule acts t') as [evs t'']. simpl in *.
      split; [done |]. split; [done |]. by apply Forall_cons.
    + by apply IH.
    + apply IH; [done | done |]. simpl. by apply keep.
Qed.

Lemma messages_starve_stop_flood :
  (schedule [Step; Stop; Step; Step; Other (λ w, 0%nat); Step; Step]
     {| running := true; at_point := AtMsgEmpty; world := 7%nat |}).1
  = [Call MsgEmpty; Call ParseJson; Call ResetVals; Call MsgEmpty; Call ParseJson]
  ∧ at_point (schedule [Step; Stop; Step; Step; Other (λ w, 0%nat); Step; Step]
                {| running := true; at_point := AtMsgEmpty; world := 7%nat |}).2
    ≠ Returned.
Proof.
  split; [by vm_compute |].
  refine (proj1 (proj2 (messages_starve_stop (λ _, True)
                          [Step; Stop; Step; Step; Other (λ w, 0%nat); Step; Step]
                          {| running := true; at_point := AtMsgEmpty; world := 7%nat |}
                          _ _ _ _ _ _))); try done.
  - repeat constructor.
  - unfold draining. simpl. set_solver.
Defined.

End WindowFacts.

(** ** Numbers as strings *)

Module NumberFacts.

Import Python.

Lemma pretty_N_char_digit k :
  (k < 10)%N →
  is_digit (pretty_N_char k) = true
  ∧ Z.of_N (code (pretty_N_char k)) - 48 = Z.of_N k.
Proof.
  intros small.
  assert (k = 0 ∨ k = 1 ∨ k = 2 ∨ k = 3 ∨ k = 4 ∨ k = 5 ∨ k = 6 ∨ k = 7 ∨ k = 8 ∨ k = 9)%N
    as cases by lia.
  repeat destruct cases as [-> | cases]; try subst k; by vm_compute.
Qed.

Lemma digit_not_space c : is_digit c = true → is_space c = false.
Proof.
  unfold is_digit, is_space, between. generalize (code c). intros n.
  rewrite andb_true_iff, !N.leb_le. intros [lo hi].
  apply orb_false_iff; split; apply andb_false_iff; rewrite !N.leb_gt; lia.
Qed.

Lemma digit_not_char c d : is_digit c = true → is_digit d = false → d ≠ c.
Proof. intros yes no ->. congruence. Qed.

(** The digits of [x] before [s]. *)
Lemma pretty_N_go_head x s :
  (0 < x)%N → ∃ d r, pretty_N_go x s = String d r ∧ is_digit d = true.
Proof.
  revert s. induction (N.lt_wf_0 x) as [x _ IH]. intros s pos.
  rewrite pretty_N_go_step by done.
  destruct (decide (x `div` 10 = 0)%N) as [-> | more].
  - rewrite pretty_N_go_0. eexists _, _. split; [done |].
    apply pretty_N_char_digit. by apply N.mod_lt.
  - apply IH; [apply N.div_lt; lia | by apply N.neq_0_lt_0].
Qed.

Lemma pretty_N_go_value x s after :
  (0 < x)%N →
  digits_value 0 after (pretty_N_go x s) = digits_value (Z.of_N x) true s.
Proof.
  revert s after. induction (N.lt_wf_0 x) as [x _ IH]. intros s after pos.
  rewrite pretty_N_go_step by done.
  destruct (pretty_N_char_digit (x `mod` 10)) as [digit value]; [by apply N.mod_lt |].
  assert (Z.of_N x = 10 * Z.of_N (x `div` 10) + Z.of_N (x `mod` 10)) as split.
  { rewrite (N.div_mod x 10) at 1 by done. lia. }
  destruct (decide (x `div` 10 = 0)%N) as [zero | more].
  - rewrite zero, pretty_N_go_0. simpl. rewrite digit, value, split, zero. done.
  - rewrite IH by first [apply N.div_lt; lia | by apply N.neq_0_lt_0]. simpl.
    by rewrite digit, value, split.
Qed.

Lemma pretty_N_go_contains x s c :
  is_digit c = false → contains c (pretty_N_go x s) = contains c s.
Proof.
  intros other. revert s. induction (N.lt_wf_0 x) as [x _ IH]. intros s.
  destruct (decide (0 < x)%N) as [pos | zero].
  - rewrite pretty_N_go_step, IH by (try apply N.div_lt; lia). simpl.
    destruct (decide (c = _)) as [-> | _]; [| done].
    destruct (pretty_N_char_digit (x `mod` 10)) as [digit _]; [by apply N.mod_lt |].
    congruence.
  - replace x with 0%N by lia. by rewrite pretty_N_go_0.
Qed.

Lemma contains_app c s t : contains c (s +:+ t) = contains c s || contains c t.
Proof.
  induction s as [|d s IH]; [done |].
  change (String d s +:+ t) with (String d (s +:+ t)). simpl.
  by destruct (decide (c = d)).
Qed.

Lemma contains_str_int c n :
  is_digit c = false → c ≠ "-"%char → contains c (str_int n) = false.
Proof.
  intros other dash. unfold str_int.
  assert (∀ p, contains c (pretty (N.pos p)) = false) as digits.
  { intros p. unfold pretty, pretty_N. rewrite decide_False by done.
    by rewrite pretty_N_go_contains. }
  destruct n as [|p|p].
  - change (pretty 0) with "0". simpl.
    destruct (decide (c = "0"%char)) as [-> | _]; [by vm_compute in other | done].
  - apply digits.
  - change (pretty (Z.neg p)) with ("-" +:+ pretty (N.pos p)).
    rewrite contains_app, (digits p). simpl. by rewrite decide_False.
Qed.

Lemma rev_app_contains c s t :
  contains c (String.rev_app s t) = contains c s || contains c t.
Proof.
  revert t. induction s as [|d s IH]; intros t; simpl; [done |].
  rewrite IH. simpl. destruct (decide (c = d)); [by rewrite orb_true_r | done].
Qed.

Lemma rev_app_rev_app s t u :
  String.rev_app (String.rev_app s t) u = String.rev_app t (s +:+ u).
Proof.
  revert t. induction s as [|a s IH]; intros t; simpl; [done |]. by rewrite IH.
Qed.

Lemma rev_rev s : String.rev (String.rev s) = s.
Proof.
  unfold String.rev. rewrite rev_app_rev_app. simpl.
  induction s as [|a s IH]; [done |].
  change (String a s +:+ "") with (String a (s +:+ "")). by f_equal.
Qed.

Lemma lstrip_plain s :
  (∀ c, is_space c = true → contains c s = false) → lstrip s = s.
Proof.
  destruct s as [|c s]; [done |]. simpl. intros none.
  destruct (is_space c) eqn:space; [| done].
  specialize (none c space). by rewrite decide_True in none.
Qed.

Lemma strip_plain s :
  (∀ c, is_space c = true → contains c s = false) → strip s = s.
Proof.
  intros none. unfold strip. rewrite (lstrip_plain s none), lstrip_plain.
  - apply rev_rev.
  - intros c space. unfold String.rev. rewrite rev_app_contains, (none c space). done.
Qed.

Lemma sign_other (A : Type) d r (minus plus other : A) :
  is_digit d = true →
  match String d r with
  | String "-" _ => minus
  | String "+" _ => plus
  | _ => other
  end = other.
Proof.
  destruct d as [[] [] [] [] [] [] [] []]; try done.
Qed.

(** [int(str(n))] is [n]. *)
Lemma int_str_int n : int (str_int n) = Ok n.
Proof.
  assert (∀ c, is_space c = true → contains c (str_int n) = false) as none.
  { intros c space. apply contains_str_int.
    - destruct (is_digit c) eqn:digit; [| done].
      apply digit_not_space in digit. congruence.
    - intros ->. by vm_compute in space. }
  unfold int. rewrite (strip_plain _ none). clear none.
  unfold str_int. destruct n as [|p|p]; [done | |].
  - change (pretty (Z.pos p)) with (pretty (N.pos p)).
    unfold pretty, pretty_N. rewrite decide_False by done.
    destruct (pretty_N_go_head (N.pos p) "") as (d & r & eq & digit); [done |].
    pose proof (pretty_N_go_value (N.pos p) "" false eq_refl) as value.
    rewrite eq in *. rewrite (sign_other _ d r _ _ _ digit). by rewrite value.
  - change (pretty (Z.neg p)) with ("-" +:+ pretty (N.pos p)).
    unfold pretty, pretty_N. rewrite decide_False by done.
    change ("-" +:+ pretty_N_go (N.pos p) "")
      with (String "-" (pretty_N_go (N.pos p) "")).
    cbv iota beta. by rewrite (pretty_N_go_value (N.pos p) "" false eq_refl).
Qed.

Lemma strtobool_str_bool_lower c :
  (n ← strtobool (str_bool_lower c); Ok (bool_of_int n)) = Ok c.
Proof. by destruct c. Qed.

End NumberFacts.

(** ** The settings dialog at work *)

Module DialogFacts.

Import Python configparser Gui Settings Samples Window Dialog NumberFacts.

Lemma bindings_ranged : Forall ranged bindings.
Proof. apply (bool_decide_unpack _). by vm_compute. Qed.

Lemma create_fits config b c : ranged b → create config b = Ok c → fits (kind b) c.
Proof.
  unfold create, ranged, fits.
  intros range (val & _ & made)%ConfigFacts.bind_ok. revert range made.
  destruct (kind b) as [| |minimum maximum]; intros range made.
  - by simplify_eq.
  - apply ConfigFacts.bind_ok in made as (n & _ & made). by simplify_eq.
  - apply ConfigFacts.bind_ok in made as (n & _ & made). unfold setValue in made.
    destruct (_ || _); simplify_eq. lia.
Qed.

Lemma shown_fits form b c :
  form !! attr b = Some c → fits (kind b) c → shown form b = Ok (written c).
Proof.
  unfold shown, fits. intros ->. by destruct (kind b), c.
Qed.

Lemma set_accepts cfg section key value :
  section ≠ EmptyString → section ≠ default_section →
  is_ok (set cfg section key value) = true
  ↔ settable value = true ∧ has_section cfg section = true.
Proof.
  intros named proper. unfold set, settable, has_section.
  assert (is_ok (if decide (value = EmptyString) then Ok value else before_set value)
          = bool_decide (value = EmptyString) || is_ok (before_set value)) as takes.
  { destruct (decide (value = EmptyString)) as [-> | some]; [done |].
    by rewrite bool_decide_eq_false_2. }
  rewrite <- takes.
  destruct (if decide (value = EmptyString) then Ok value else before_set value)
    as [value'|e]; simpl; [| split; [done | by intros [? _]]].
  destruct (decide (section = EmptyString ∨ section = default_section)) as [[] | _];
    [done | done |].
  destruct (sections cfg !! section) as [d|]; simpl.
  - split; [intros _ | done]. split; [done |].
    first [done | by apply bool_decide_eq_true_2].
  - split; [done |]. intros [_ there].
    first [done | apply bool_decide_eq_true in there; by destruct there].
Qed.

Lemma written_plain c :
  (∀ s, c = Text s → contains "%" s = false) → contains "%" (written c) = false.
Proof.
  destruct c as [s|[]|n]; simpl; intros plain; [by apply plain | done | done |].
  by apply contains_str_int.
Qed.

Lemma settable_plain value : contains "%" value = false → settable value = true.
Proof.
  intros plain. unfold settable. rewrite ConfigFacts.before_set_plain by done.
  apply orb_true_r.
Qed.

Lemma settable_written c :
  (∀ s, c = Text s → settable s = true) → settable (written c) = true.
Proof.
  destruct c as [s|c|n]; intros text; [by apply text | |].
  - apply settable_plain. by destruct c.
  - apply settable_plain. by apply (written_plain (Value n)).
Qed.

(** The writes of [save_config] all succeed exactly when the sections
    are there and the texts are values [set] takes. *)
Lemma update_config_accepts bs form config :
  Forall proper bs →
  (∀ b, b ∈ bs → ∃ c, form !! attr b = Some c ∧ fits (kind b) c) →
  (update_config bs form config).2 = None
  ↔ (∀ b, b ∈ bs → has_section config (section b) = true)
    ∧ (∀ b s, b ∈ bs → form !! attr b = Some (Text s) → settable s = true).
Proof.
  revert config. induction bs as [|b bs IH]; intros config props fields.
  - simpl. split; [intros _ | done]. split; [intros b there | intros b s there]; by apply elem_of_nil in there.
  - apply Forall_cons in props as [[named prop] props].
    destruct (fields b) as (c & held & fit); [by left |].
    specialize (λ config, IH config props (λ b' there, fields b' (proj2 (elem_of_cons _ _ _) (or_intror there)))).
    pose proof (set_accepts config (section b) (key b) (written c) named prop) as accepts.
    cbn [update_config]. rewrite (shown_fits _ _ _ held fit).
    change (Ok (written c) ≫= _) with (set config (section b) (key b) (written c)).
    destruct (set config (section b) (key b) (written c)) as [config1|e] eqn:eq.
    + cbv iota beta. rewrite IH. destruct accepts as [[takes there] _]; [done |].
      assert (∀ s, has_section config1 s = has_section config s) as same.
      { intros s. by apply (ConfigFacts.set_has_section _ _ _ _ _ _ named prop eq). }
      setoid_rewrite same. split.
      * intros [sects texts]. split.
        -- intros b' [-> | further]%elem_of_cons; [done | by apply sects].
        -- intros b' s [-> | further]%elem_of_cons text; [| by apply (texts b')].
           rewrite held in text. by simplify_eq.
      * intros [sects texts]. split.
        -- intros b' further. apply sects. by right.
        -- intros b' s further. apply texts. by right.
    + cbv iota beta. simpl. split; [done |]. intros [sects texts].
      destruct accepts as [_ accepts]. cut (false = true); [done |].
      apply accepts. split; [| apply sects; by left].
      apply settable_written. intros s ->. apply (texts b); [by left | done].
Qed.


(** *** The form of a dialog just opened *)

Lemma init_form fs self :
  SettingsDialog_init fs = Ok self →
  config self = read fs
  ∧ (∀ b, b ∈ bindings → ∃ c, create (read fs) b = Ok c ∧ form self !! attr b = Some c)
  ∧ (∀ a, a ∉ attr <$> bindings → form self !! a = None).
Proof.
  unfold SettingsDialog_init. cbv zeta.
  intros (made & tabs & eq)%ConfigFacts.bind_ok. simplify_eq. simpl.
  destruct (SettingsFacts.create_tabs_lookup _ _ _ _ SettingsFacts.bindings_attrs tabs)
    as [fields others].
  split; [done |]. split; [done |]. intros a other. by rewrite others.
Qed.

Lemma init_valid fs self : SettingsDialog_init fs = Ok self → valid (form self).
Proof.
  intros (_ & fields & _)%init_form b there.
  destruct (fields b there) as (c & made & held). exists c. split; [done |].
  apply (create_fits (read fs)); [| done].
  by apply (proj1 (Forall_forall _ _) bindings_ranged).
Qed.

(** X8: the dialog that has opened holds the configuration read and a
    form with exactly its sixty fields, each holding what its widget
    can: a text, a tick, or a number within the range of the spin box,
    whatever number the file gave. *)
Theorem opened_form_valid fs self :
  SettingsDialog_init fs = Ok self →
  config self = read fs
  ∧ valid (form self)
  ∧ (∀ a, is_Some (form self !! a) ↔ a ∈ attr <$> bindings)
  ∧ ∀ b minimum maximum,
      b ∈ bindings → kind b = QSpinBox minimum maximum →
      ∃ n, form self !! attr b = Some (Value n) ∧ minimum ≤ n ≤ maximum.
Proof.
  intros init. pose proof (init_valid _ _ init) as fields.
  destruct (init_form _ _ init) as (read & made & others).
  split; [done |]. split; [done |]. split.
  - intros a. split.
    + intros held. destruct (decide (a ∈ attr <$> bindings)) as [there | other]; [done |].
      rewrite (others a other) in held. by destruct held.
    + intros (b & -> & there)%list_elem_of_fmap.
      destruct (fields b there) as (c & -> & _). by eexists.
  - intros b minimum maximum there spin.
    destruct (fields b there) as (c & held & fit). rewrite spin in fit.
    destruct c as [s|c|n]; try done. by exists n.
Qed.

Lemma opened_form_valid_full :
  ∃ n, form (opened (file full true)) !! "tcp_port_edit" = Some (Value n) ∧ 1 ≤ n ≤ 65535.
Proof.
  refine (proj2 (proj2 (proj2 (opened_form_valid (file full true) (opened (file full true))
                                 SettingsFacts.opened_full)))
            tcp_port_field 1 65535 _ eq_refl).
  apply (bool_decide_unpack _). by vm_compute.
Defined.

(** *** When Save succeeds *)

(** X9: for a form whose fields hold what their widgets can, Save is
    accepted exactly when every section a field is bound to is in the
    configuration, every text is empty or passes the percent check of
    [set], the file can be opened for writing and the write does not
    raise: ticks and numbers never make it fail. *)
Theorem save_accepted_iff self fs :
  valid (form self) →
  accepted (save_config self fs) = true
  ↔ (∀ b, b ∈ bindings → has_section (config self) (section b) = true)
    ∧ (∀ b s, b ∈ bindings → form self !! attr b = Some (Text s) → settable s = true)
    ∧ open_error fs = None
    ∧ write_error fs = None.
Proof.
  intros fields. rewrite SettingsFacts.save_config_accepts.
  rewrite (update_config_accepts _ _ _ SettingsFacts.bindings_proper fields). tauto.
Qed.

Lemma save_accepted_iff_full :
  accepted (save_config (opened (file full true)) (file full true)) = true
  ∧ accepted (save_config (opened (file full true)) (on_full_disk (file full true)))
    = false.
Proof.
  pose proof (save_accepted_iff (opened (file full true)) (file full true)
                (init_valid _ _ SettingsFacts.opened_full)) as whole.
  pose proof (save_accepted_iff (opened (file full true)) (on_full_disk (file full true))
                (init_valid _ _ SettingsFacts.opened_full)) as full_disk.
  split.
  - assert (accepted (save_config (opened (file full true)) (file full true)) = true)
      as saved by (clear; by vm_compute).
    apply whole. by apply whole in saved.
  - apply not_true_iff_false. intros saved.
    apply full_disk in saved as (_ & _ & _ & writes). done.
Defined.

(** *** What was saved, read again *)

Lemma saved_get form config config' b c :
  update_config bindings form config = (config', None) →
  b ∈ bindings → form !! attr b = Some c → fits (kind b) c →
  (∀ s, c = Text s → contains "%" s = false) →
  has_section config' (section b) = true
  ∧ ∀ fallback', get config' (section b) (key b) fallback' = Ok (written c).
Proof.
  intros saved there held fit plain.
  destruct (SettingsFacts.update_config_written _ _ _ _ SettingsFacts.bindings_proper
              SettingsFacts.bindings_targets saved b there) as (val & showed & kept).
  rewrite (shown_fits _ _ _ held fit) in showed. simplify_eq.
  destruct (proj1 (Forall_forall _ _) SettingsFacts.bindings_proper b there) as [named prop].
  split.
  - unfold stored in kept. rewrite decide_False in kept by done.
    unfold has_section. apply bool_decide_eq_true.
    destruct (sections config' !! section b); [by eexists | done].
  - intros fallback'. apply ConfigFacts.get_plain; [| by apply written_plain].
    by apply SettingsFacts.stored_visible.
Qed.

Lemma create_written config b c :
  ranged b → fits (kind b) c →
  get config (section b) (key b) (fallback b) = Ok (written c) →
  create config b = Ok c.
Proof.
  unfold create, ranged, fits. intros range fit ->.
  change (Ok (written c) ≫= ?f) with (f (written c)). cbv beta.
  destruct (kind b) as [| |minimum maximum], c as [s|c|n]; try done; simpl.
  - by destruct c.
  - rewrite int_str_int. change (Ok n ≫= ?f) with (f n). cbv beta.
    unfold setValue.
    assert ((n <? -2147483648) || (2147483647 <? n) = false) as ->.
    { apply orb_false_iff. split; apply Z.ltb_ge; lia. }
    do 2 f_equal. lia.
Qed.

(** X10: what Save has put in the configuration object reads back as
    the field held it: after an accepted save the object answers [get]
    under the key of a field with the string of its content, as long as
    a text has no percent sign, and a field built from the object holds
    the same content: a tick is written as a word [strtobool] takes, a
    number as the decimal [int] reads back, within the range. *)
Theorem saved_values_read_back self fs b c :
  valid (form self) →
  accepted (save_config self fs) = true →
  b ∈ bindings → form self !! attr b = Some c →
  (∀ s, c = Text s → contains "%" s = false) →
  get (config (dialog (save_config self fs))) (section b) (key b) (fallback b)
  = Ok (written c)
  ∧ create (config (dialog (save_config self fs))) b = Ok c.
Proof.
  intros fields (config' & saved & -> & _)%SettingsFacts.save_config_accepted
         there held plain.
  destruct (fields b there) as (c' & held' & fit). rewrite held in held'. simplify_eq.
  destruct (saved_get _ _ _ _ _ saved there held fit plain) as [_ reads].
  pose proof (proj1 (Forall_forall _ _) bindings_ranged b there) as range.
  simpl. split; [apply reads |]. by apply create_written.
Qed.

Lemma saved_values_read_back_full :
  create (config (dialog (save_config (opened (file full true)) (file full true))))
    tcp_port_field
  = Ok (Value 2442).
Proof.
  refine (proj2 (saved_values_read_back (opened (file full true)) (file full true)
                   tcp_port_field (Value 2442) _ _ _ _ _)); try done.
  - exact (init_valid _ _ SettingsFacts.opened_full).
  - apply (bool_decide_unpack _). by vm_compute.
Defined.


(** *** The saved file in the status window *)

Lemma saved_section_get form config config' b c :
  update_config bindings form config = (config', None) →
  b ∈ bindings → form !! attr b = Some c → fits (kind b) c →
  (∀ s, c = Text s → contains "%" s = false) →
  ∀ fallback', section_get config' (section b) (key b) fallback' = Ok (written c).
Proof.
  intros saved there held fit plain fallback'.
  destruct (saved_get _ _ _ _ _ saved there held fit plain) as [present reads].
  rewrite GuiFacts.section_get_present by done. apply reads.
Qed.

Lemma saved_enabled form config config' b c :
  update_config bindings form config = (config', None) →
  b ∈ bindings → kind b = QCheckBox → form !! attr b = Some (Checked c) →
  has_section config' (section b) = true
  ∧ enabled config' (section b) (key b) = Ok c.
Proof.
  intros saved there box held.
  assert (fits (kind b) (Checked c)) as fit by (by rewrite box).
  destruct (saved_get _ _ _ _ _ saved there held fit) as [present reads]; [done |].
  split; [done |]. unfold enabled.
  rewrite (saved_section_get _ _ _ _ _ saved there held fit) by done.
  by destruct c.
Qed.

Lemma load_source_saved config on tcp_host tcp_port udp_host udp_port :
  has_section config "TCP" = true → enabled config "TCP" "enabled" = Ok on →
  (∀ fb, section_get config "TCP" "host" fb = Ok tcp_host) →
  (∀ fb, section_get config "TCP" "port" fb = Ok tcp_port) →
  (∀ fb, section_get config "JS8Call" "host" fb = Ok udp_host) →
  (∀ fb, section_get config "JS8Call" "port" fb = Ok udp_port) →
  tcp_enabled config = on
  ∧ load_source config
    = Ok (if on then StatusIndicator_init "JS8Call (TCP)" "TCP" tcp_host tcp_port
          else StatusIndicator_init "JS8Call (UDP)" "UDP" udp_host udp_port).
Proof.
  intros present flag th tp uh up.
  assert (tcp_enabled config = on) as test.
  { unfold tcp_enabled, contains_section. rewrite present, flag. by rewrite orb_true_r. }
  split; [done |]. unfold load_source. rewrite test. destruct on.
  - rewrite th. simpl. by rewrite tp.
  - rewrite uh. simpl. by rewrite up.
Qed.

Lemma load_n1mm_saved config self on host port :
  enabled config "N1MM" "enabled" = Ok on →
  (∀ fb, section_get config "N1MM" "host" fb = Ok host) →
  (∀ fb, section_get config "N1MM" "port" fb = Ok port) →
  load_n1mm config self
  = Ok (if on then add_client (StatusIndicator_init "N1MM+" "UDP" host port) self else self).
Proof.
  intros flag h p. unfold load_n1mm. rewrite flag. simpl. destruct on; [| done].
  rewrite h. simpl. by rewrite p.
Qed.

Lemma load_gridtracker_saved config self on host port :
  enabled config "GRIDTRACKER" "enabled" = Ok on →
  (∀ fb, section_get config "GRIDTRACKER" "host" fb = Ok host) →
  (∀ fb, section_get config "GRIDTRACKER" "port" fb = Ok port) →
  load_gridtracker config self
  = Ok (if on then add_client (StatusIndicator_init "GridTracker" "UDP" host port) self
        else self).
Proof.
  intros flag h p. unfold load_gridtracker. rewrite flag. simpl. destruct on; [| done].
  rewrite h. simpl. by rewrite p.
Qed.

Lemma load_geoserver_saved config self msg spot host port :
  enabled config "GEOSERVER" "enabled_msg" = Ok msg →
  enabled config "GEOSERVER" "enabled_spot" = Ok spot →
  (∀ fb, section_get config "GEOSERVER" "host" fb = Ok host) →
  (∀ fb, section_get config "GEOSERVER" "port" fb = Ok port) →
  load_geoserver config self
  = Ok (if msg || spot
        then add_client (StatusIndicator_init "GeoServer" "UDP" host port) self
        else self).
Proof.
  intros flag flag' h p. unfold load_geoserver. rewrite flag. simpl. rewrite flag'. simpl.
  destruct (msg || spot); [| done]. rewrite h. simpl. by rewrite p.
Qed.

Lemma load_yaac_saved config self on logfile :
  enabled config "YAAC" "enabled" = Ok on →
  (∀ fb, section_get config "YAAC" "logfile" fb = Ok logfile) →
  load_yaac config self
  = Ok (if on then add_client (StatusIndicator_init "YAAC" "FILE" "Log" logfile) self
        else self).
Proof.
  intros flag l. unfold load_yaac. rewrite flag. simpl. destruct on; [| done].
  by rewrite l.
Qed.

Lemma load_adif_saved config self on logfile :
  enabled config "ADIF" "enabled" = Ok on →
  (∀ fb, section_get config "ADIF" "logfile" fb = Ok logfile) →
  load_adif config self
  = Ok (if on then add_client (StatusIndicator_init "ADIF" "FILE" "Log" logfile) self
        else self).
Proof.
  intros flag l. unfold load_adif. rewrite flag. simpl. destruct on; [| done].
  by rewrite l.
Qed.

Ltac listed := apply (bool_decide_unpack _); by vm_compute.

(** The tick of a check box of the form, and what the saved
    configuration answers for it. *)
Ltac saved_flag fields saved a sec k fb c held on :=
  let there := fresh "there" in
  let fit := fresh "fit" in
  assert (bind a sec k QCheckBox fb ∈ bindings) as there by listed;
  destruct (fields _ there) as ([?|c|?] & held & fit); [done | | done];
  destruct (saved_enabled _ _ _ _ _ saved there eq_refl held) as [? on];
  cbn [section key attr] in *;
  clear there fit.

Ltac saved_text fields saved texts a sec k fb s got :=
  let there := fresh "there" in
  let held := fresh "held" in
  let fit := fresh "fit" in
  let plain := fresh "plain" in
  assert (bind a sec k QLineEdit fb ∈ bindings) as there by listed;
  destruct (fields _ there) as ([s|?|?] & held & fit); [| done | done];
  assert (∀ s', Text s = Text s' → contains "%" s' = false) as plain
    by (intros ? [= <-]; apply (texts a); [listed | exact held]);
  pose proof (saved_section_get _ _ _ _ _ saved there held fit plain) as got;
  cbn [section key attr written] in got;
  clear there held fit plain.

Ltac saved_number fields saved a sec k lo hi fb n got :=
  let there := fresh "there" in
  let held := fresh "held" in
  let fit := fresh "fit" in
  assert (bind a sec k (QSpinBox lo hi) fb ∈ bindings) as there by listed;
  destruct (fields _ there) as ([?|?|n] & held & fit); [done | done |];
  pose proof (saved_section_get _ _ _ _ _ saved there held fit ltac:(done)) as got;
  cbn [section key attr written] in got;
  clear there held fit.

(** X11: the configuration object of an accepted save is one the
    status window loads.  When Save is accepted for a form whose fields
    hold what their widgets can, and the seven texts the window reads
    have no percent sign, then on every file that [configparser] reads
    as that object [load_config] raises nothing and makes the
    indicators the ticks ask for: the source by the TCP box, then a
    client for each box ticked, GeoServer for either of its two.
    Whether the file that was written reads as the object is not part
    of this. *)
Theorem saved_object_loads self fs fs' :
  valid (form self) →
  accepted (save_config self fs) = true →
  (∀ a s, a ∈ window_texts → form self !! a = Some (Text s) → contains "%" s = false) →
  config_file fs' = Some (config (dialog (save_config self fs))) →
  ∃ gui,
    load_config fs' init_ui = Ok gui
    ∧ label <$> status_indicators gui = indicators_of (form self).
Proof.
  intros fields (config' & saved & -> & _)%SettingsFacts.save_config_accepted texts holds.
  simpl in holds. unfold load_config. cbv zeta.
  assert (read fs' = config') as -> by (unfold read; by rewrite holds).
  saved_flag fields saved "tcp_enabled" "TCP" "enabled" "false" tcp_tick tcp_held tcp_on.
  saved_flag fields saved "n1mm_enabled" "N1MM" "enabled" "false" n1mm_tick n1mm_held n1mm_on.
  saved_flag fields saved "gt_enabled" "GRIDTRACKER" "enabled" "false" gt_tick gt_held gt_on.
  saved_flag fields saved "gs_msg_enabled" "GEOSERVER" "enabled_msg" "false"
    msg_tick msg_held msg_on.
  saved_flag fields saved "gs_spot_enabled" "GEOSERVER" "enabled_spot" "false"
    spot_tick spot_held spot_on.
  saved_flag fields saved "yaac_enabled" "YAAC" "enabled" "false" yaac_tick yaac_held yaac_on.
  saved_flag fields saved "adif_enabled" "ADIF" "enabled" "false" adif_tick adif_held adif_on.
  saved_text fields saved texts "tcp_host_edit" "TCP" "host" "127.0.0.1" tcp_host tcp_h.
  saved_text fields saved texts "udp_host_edit" "JS8Call" "host" "127.0.0.1" udp_host udp_h.
  saved_text fields saved texts "n1mm_host_edit" "N1MM" "host" "127.0.0.1" n1mm_host n1mm_h.
  saved_text fields saved texts "gt_host_edit" "GRIDTRACKER" "host" "127.0.0.1" gt_host gt_h.
  saved_text fields saved texts "gs_host_edit" "GEOSERVER" "host" "127.0.0.1" gs_host gs_h.
  saved_text fields saved texts "yaac_logfile_edit" "YAAC" "logfile" "yaac.log"
    yaac_log yaac_l.
  saved_text fields saved texts "adif_logfile_edit" "ADIF" "logfile" "adif.log"
    adif_log adif_l.
  saved_number fields saved "tcp_port_edit" "TCP" "port" 1 65535 "2171" tcp_port tcp_p.
  saved_number fields saved "udp_port_edit" "JS8Call" "port" 1 65535 "2242" udp_port udp_p.
  saved_number fields saved "n1mm_port_edit" "N1MM" "port" 1 65535 "12060" n1mm_port n1mm_p.
  saved_number fields saved "gt_port_edit" "GRIDTRACKER" "port" 1 65535 "2237" gt_port gt_p.
  saved_number fields saved "gs_port_edit" "GEOSERVER" "port" 1 65535 "8080" gs_port gs_p.
  destruct (load_source_saved config' tcp_tick _ _ _ _ ltac:(done) tcp_on tcp_h tcp_p udp_h udp_p)
    as [_ ->].
  change (Ok ?x ≫= ?f) with (f x). cbv beta zeta.
  rewrite (load_n1mm_saved config' _ n1mm_tick _ _ n1mm_on n1mm_h n1mm_p).
  change (Ok ?x ≫= ?f) with (f x). cbv beta.
  rewrite (load_gridtracker_saved config' _ gt_tick _ _ gt_on gt_h gt_p).
  change (Ok ?x ≫= ?f) with (f x). cbv beta.
  rewrite (load_geoserver_saved config' _ msg_tick spot_tick _ _ msg_on spot_on gs_h gs_p).
  change (Ok ?x ≫= ?f) with (f x). cbv beta.
  rewrite (load_yaac_saved config' _ yaac_tick _ yaac_on yaac_l).
  change (Ok ?x ≫= ?f) with (f x). cbv beta.
  rewrite (load_adif_saved config' _ adif_tick _ adif_on adif_l).
  eexists. split; [done |].
  unfold indicators_of, ticked.
  rewrite tcp_held, n1mm_held, gt_held, msg_held, spot_held, yaac_held, adif_held.
  by destruct tcp_tick, n1mm_tick, gt_tick, msg_tick, spot_tick, yaac_tick, adif_tick.
Qed.

Lemma saved_object_loads_full :
  ∃ gui,
    load_config
      {| config_file :=
           Some (config (dialog (save_config (opened (file full true)) (file full true))));
         open_error := None; write_error := None |}
      init_ui
    = Ok gui
    ∧ label <$> status_indicators gui
      = [("JS8Call (TCP)", "TCP"); ("N1MM+", "UDP"); ("YAAC", "FILE")].
Proof.
  refine (saved_object_loads (opened (file full true)) (file full true)
            {| config_file :=
                 Some (config (dialog (save_config (opened (file full true))
                                         (file full true))));
               open_error := None; write_error := None |}
            (init_valid _ _ SettingsFacts.opened_full) _ _ eq_refl).
  - by vm_compute.
  - intros a s. unfold window_texts. rewrite !elem_of_cons, elem_of_nil.
    intros [-> | [-> | [-> | [-> | [-> | [-> | [-> | []]]]]]]] held;
      vm_compute in held; injection held as <-; by vm_compute.
Defined.


(** *** When the dialog opens *)

Lemma create_tabs_raise config bs form e :
  create_tabs config bs form = Raise e → ∃ b, b ∈ bs ∧ create config b = Raise e.
Proof.
  revert form. induction bs as [|b bs IH]; intros form; [done |].
  cbn [create_tabs]. intros [raised | (c & made & rest)]%ConfigFacts.bind_raise.
  - exists b. split; [by left | done].
  - destruct (IH _ rest) as (b' & there & raised). exists b'. split; [by right | done].
Qed.

Lemma create_tabs_opens config bs form :
  is_ok (create_tabs config bs form) = true
  ↔ ∀ b, b ∈ bs → is_ok (create config b) = true.
Proof.
  revert form. induction bs as [|b bs IH]; intros form.
  - split; [| done]. intros _ b there. by apply elem_of_nil in there.
  - cbn [create_tabs]. destruct (create config b) as [c|e] eqn:made.
    + change (Ok c ≫= ?f) with (f c). cbv beta. rewrite IH. split.
      * intros rest b' [-> | there]%elem_of_cons; [by rewrite made | by apply rest].
      * intros all b' there. apply all. by right.
    + split; [done |]. intros all. specialize (all b ltac:(by left)).
      by rewrite made in all.
Qed.

Lemma create_not_key_error config b e :
  create config b = Raise e → is_key_error e = false.
Proof.
  unfold create. intros [raised | (val & _ & made)]%ConfigFacts.bind_raise.
  - by apply ConfigFacts.get_not_key_error in raised.
  - destruct (kind b) as [| |minimum maximum]; [done | |].
    + apply ConfigFacts.bind_raise in made as [raised | (n & _ & [=])].
      by apply GuiFacts.strtobool_passes in raised.
    + apply ConfigFacts.bind_raise in made as [raised | (n & _ & made)].
      * unfold int in raised. destruct (strip val) as [|c r]; simpl in raised.
        -- by simplify_eq.
        -- repeat case_match; by simplify_eq.
      * unfold setValue in made. destruct (_ || _); by simplify_eq.
Qed.

Lemma create_absent_ok config b :
  b ∈ bindings → has_option config (section b) (key b) = false →
  is_ok (create config b) = true.
Proof.
  intros there absent.
  rewrite SettingsFacts.create_absent;
    [| by apply (proj1 (Forall_forall _ _) SettingsFacts.bindings_proper) | done].
  pose proof (proj1 (Forall_forall _ _) SettingsFacts.bindings_show_fallback b there)
    as shows.
  unfold shows_fallback in shows. by destruct (create new b).
Qed.

Lemma init_opens fs :
  is_ok (SettingsDialog_init fs) = is_ok (create_tabs (read fs) bindings ∅).
Proof. unfold SettingsDialog_init. cbv zeta. by destruct (create_tabs _ _ _). Qed.

Lemma dialog_new_parses fs : SettingsDialog_new (Parses fs) = SettingsDialog_init fs.
Proof. done. Qed.

Lemma window_new_parses fs b :
  JS8CallMonitorGUI_new (Parses fs) b = JS8CallMonitorGUI_init fs b.
Proof. done. Qed.

(** A dialog that has opened has read its file. *)
Lemma dialog_new_ok d self :
  SettingsDialog_new d = Ok self ↔ ∃ fs, d = Parses fs ∧ SettingsDialog_init fs = Ok self.
Proof.
  destruct d as [fs|e].
  - rewrite dialog_new_parses. split; [by exists fs | by intros (fs' & [= <-] & ?)].
  - split; [done | by intros (fs & [=] & _)].
Qed.

Lemma window_new_ok d b gui :
  JS8CallMonitorGUI_new d b = Ok gui
  ↔ ∃ fs, d = Parses fs ∧ JS8CallMonitorGUI_init fs b = Ok gui.
Proof.
  destruct d as [fs|e].
  - rewrite window_new_parses. split; [by exists fs | by intros (fs' & [= <-] & ?)].
  - split; [done | by intros (fs & [=] & _)].
Qed.

(** X12: the dialog opens unless [read] raises or a value that is in
    the file fails to parse.  It opens exactly when the file is one
    [configparser] can read and every field whose option the file has
    can be built; when it does not, the exception is that of [read] or
    that of such a field, which is no [KeyError]: a section or an option
    that is missing never keeps it from opening.  On a missing file it
    opens, with the defaults, where the status window stops at its
    first section; on a file [read] raises on, dialog and window both
    raise that exception. *)
Theorem dialog_opens_unless_value d :
  (is_ok (SettingsDialog_new d) = true
   ↔ ∃ fs, d = Parses fs
           ∧ ∀ b, b ∈ bindings → has_option (read fs) (section b) (key b) = true →
                  is_ok (create (read fs) b) = true)
  ∧ (∀ e, SettingsDialog_new d = Raise e →
          d = Garbled e
          ∨ ∃ fs b, d = Parses fs ∧ b ∈ bindings
                    ∧ has_option (read fs) (section b) (key b) = true
                    ∧ create (read fs) b = Raise e
                    ∧ is_key_error e = false)
  ∧ (∀ fs b, d = Parses fs → config_file fs = None →
     is_ok (SettingsDialog_new d) = true
     ∧ JS8CallMonitorGUI_new d b = Raise (KeyError "JS8Call"))
  ∧ (∀ e b, d = Garbled e →
     SettingsDialog_new d = Raise e ∧ JS8CallMonitorGUI_new d b = Raise e).
Proof.
  assert (∀ fs, is_ok (SettingsDialog_init fs) = true
                ↔ ∀ b, b ∈ bindings → has_option (read fs) (section b) (key b) = true →
                       is_ok (create (read fs) b) = true) as opens.
  { intros fs. rewrite init_opens, create_tabs_opens. split.
    - intros all b there _. by apply all.
    - intros present b there.
      destruct (has_option (read fs) (section b) (key b)) eqn:has;
        [by apply present | by apply create_absent_ok]. }
  split; [| split; [| split]].
  - destruct d as [fs|e].
    + rewrite dialog_new_parses, opens. split.
      * intros all. by exists fs.
      * intros (fs' & [= <-] & all). done.
    + split; [done |]. by intros (fs & [=] & _).
  - intros e. destruct d as [fs|e'].
    + rewrite dialog_new_parses.
      unfold SettingsDialog_init. cbv zeta.
      intros [raised | (made & _ & [=])]%ConfigFacts.bind_raise.
      destruct (create_tabs_raise _ _ _ _ raised) as (b & there & failed).
      right. exists fs, b. split; [done |]. split; [done |].
      split; [| split; [done | by apply (create_not_key_error _ _ _ failed)]].
      destruct (has_option (read fs) (section b) (key b)) eqn:has; [done |].
      pose proof (create_absent_ok _ _ there has) as built. by rewrite failed in built.
    + intros [= <-]. by left.
  - intros fs b -> missing. rewrite dialog_new_parses, window_new_parses. split.
    + apply opens. intros b' there _. apply create_absent_ok; [done |].
      destruct (proj1 (Forall_forall _ _) SettingsFacts.bindings_proper b' there)
        as [named prop].
      unfold read. rewrite missing. simpl. unfold has_option.
      by rewrite decide_False by tauto.
    + unfold JS8CallMonitorGUI_init, load_config, read. rewrite missing. done.
  - by intros e b ->.
Qed.

Lemma dialog_opens_unless_value_duplicate :
  SettingsDialog_new
    (Garbled (Exception "While reading from 'config' [line  3]: option 'port' in section 'TCP' already exists"))
  = Raise (Exception "While reading from 'config' [line  3]: option 'port' in section 'TCP' already exists").
Proof.
  exact (proj1 (proj2 (proj2 (proj2 (dialog_opens_unless_value _))) _ backend eq_refl)).
Defined.

(** *** Browse *)

Lemma browsable_fields :
  Forall (λ b, attr b ∈ browsable → kind b = QLineEdit) bindings
  ∧ Forall (λ a, a ∈ attr <$> bindings) browsable.
Proof. split; apply (bool_decide_unpack _); by vm_compute. Qed.

Lemma browse_valid form a choice :
  valid form → a ∈ browsable → valid (browse choice a form).
Proof.
  intros fields button b there. unfold browse.
  destruct (decide (choice = EmptyString)) as [_ | _]; [by apply fields |].
  destruct (decide (attr b = a)) as [<- | other].
  - exists (Text choice). rewrite lookup_insert_eq. split; [done |].
    by rewrite (proj1 (Forall_forall _ _) (proj1 browsable_fields) b there button).
  - rewrite lookup_insert_ne by done. by apply fields.
Qed.

(** X13: a Browse button puts the name chosen in its line edit and
    touches nothing else; a cancelled choice leaves the form as it was.
    The form stays one whose fields hold what their widgets can.  A
    name with a percent sign that [set] refuses makes the next Save
    fail; when the Save is accepted, the name is what the configuration
    holds under the key of the field. *)
Theorem browse_then_save self fs a choice :
  valid (form self) → a ∈ browsable →
  let form' := browse choice a (form self) in
  let out := save_config {| config := config self; form := form' |} fs in
  valid form'
  ∧ (∀ a', a' ≠ a → form' !! a' = form self !! a')
  ∧ (choice = EmptyString → form' = form self)
  ∧ (choice ≠ EmptyString → form' !! a = Some (Text choice))
  ∧ (settable choice = false → accepted out = false ∧ files out = fs)
  ∧ (choice ≠ EmptyString → accepted out = true →
     ∃ b, b ∈ bindings ∧ attr b = a
          ∧ stored (config (dialog out)) (section b) (optionxform (key b)) = Some choice).
Proof.
  intros fields button form' out.
  pose proof (browse_valid _ _ choice fields button) as fields'.
  assert (∃ b, b ∈ bindings ∧ attr b = a) as (b & there & <-).
  { pose proof (proj1 (Forall_forall _ _) (proj2 browsable_fields) a button) as listed.
    apply list_elem_of_fmap in listed as (b & -> & there). by exists b. }
  assert (choice ≠ EmptyString → form' !! attr b = Some (Text choice)) as chosen.
  { intros some. unfold form', browse. rewrite decide_False by done.
    apply lookup_insert_eq. }
  split; [done |]. split; [| split; [| split; [done |]]].
  - intros a' other. unfold form', browse. destruct (decide _); [done |].
    by rewrite lookup_insert_ne.
  - intros ->. unfold form', browse. by rewrite decide_True.
  - split.
    + intros refused.
      assert ((update_config bindings form' (config self)).2 ≠ None) as fails.
      { intros writes.
        apply (update_config_accepts _ _ _ SettingsFacts.bindings_proper fields')
          in writes as [_ texts].
        rewrite (texts b choice there) in refused; [done |].
        apply chosen. intros ->. by vm_compute in refused. }
      split.
      * apply not_true_iff_false. intros saved.
        by apply SettingsFacts.save_config_accepts in saved as [writes _].
      * by apply SettingsFacts.save_config_set_fails.
    + intros some taken. unfold out in *.
      apply SettingsFacts.save_config_accepted in taken as (config' & saved & -> & _).
      exists b. split; [done |]. split; [done |].
      destruct (SettingsFacts.update_config_written _ _ _ _ SettingsFacts.bindings_proper
                  SettingsFacts.bindings_targets saved b there) as (val & showed & kept).
      simpl in showed. unfold shown in showed. fold form' in showed.
      rewrite (chosen some) in showed.
      rewrite (proj1 (Forall_forall _ _) (proj1 browsable_fields) b there button)
        in showed.
      by simplify_eq.
Qed.

Lemma browse_then_save_percent :
  accepted
    (save_config
       {| config := config (opened (file full true));
          form := browse "/var/log/50%/yaac.log" "yaac_logfile_edit"
                    (form (opened (file full true))) |}
       (file full true))
  = false.
Proof.
  refine (proj1 (proj1 (proj2 (proj2 (proj2 (proj2
            (browse_then_save (opened (file full true)) (file full true)
               "yaac_logfile_edit" "/var/log/50%/yaac.log"
               (init_valid _ _ SettingsFacts.opened_full) _))))) _)).
  - apply (bool_decide_unpack _). by vm_compute.
  - by vm_compute.
Defined.

End DialogFacts.
